(** * gpx.waypoint: the Waypoint element of the GPX data format

    A shallow embedding of [src/gpx/waypoint.py]: the class [Waypoint] with
    its [_parse] (XML element to object), [_build] (object to XML element),
    [__geo_interface__] projection and the pairwise metrics [distance_to],
    [duration_to], [speed_to] and [gain_to].

    What the module imports and this development does not have the source
    of (the [types], [link] and [element] modules of the package, and the
    text conversions of [decimal], [int] and [dateutil]) is gathered in the
    record [Externals]; every definition of the class is parametric in it.
    Python values are modelled as follows:
    - an exception is a value of [exn], and a call that may raise returns a
      [result];
    - an XML element is a tag, an ordered attribute list, an optional text and
      the ordered list of its children; name spaces are left out (the class
      passes one and the same map to every call);
    - a [Decimal] is a finite decimal number, an integer coefficient and an
      exponent; results of arithmetic are rounded to the 28 significant digits
      of the default context, ties to even. The special values (infinities,
      NaN), the sign of a zero and the bounds on exponents are not
      represented;
    - a [datetime] is its calendar fields and an optional offset from UTC in
      whole minutes, as ISO 8601 writes one;
    - a [timedelta] is its length in microseconds;
    - a Python [float] is idealised as a real number. *)

From Stdlib Require Import String Ascii List Bool ZArith NArith Lia.
From Stdlib Require Import DecimalString DecimalN.
From Stdlib Require Import Reals Lra.
Import ListNotations.

#[local] Set Warnings "-register-all".

Open Scope list_scope.
Open Scope string_scope.
Open Scope Z_scope.

(** ** Exceptions and results *)

Inductive exn : Type :=
| TypeError (msg : string)
| ValueError (msg : string)
| ZeroDivisionError (msg : string)
| OverflowError (msg : string)
| InvalidOperation (msg : string)
| Overflow (msg : string).

Inductive result (A : Type) : Type :=
| Ok (a : A)
| Raise (e : exn).

Arguments Ok {A} a.
Arguments Raise {A} e.

Definition bind {A B : Type} (m : result A) (k : A -> result B) : result B :=
  match m with
  | Ok a => k a
  | Raise e => Raise e
  end.

Declare Scope result_scope.
Delimit Scope result_scope with result.
Notation "x <- m ;; k" := (bind m (fun x => k))
  (at level 61, m at next level, right associativity) : result_scope.
Open Scope result_scope.

(** Converts every item of a list, left to right, and stops at the first
    exception: the loop [for x in xs: acc.append(f(x))]. *)
Fixpoint for_each {A B : Type} (f : A -> result B) (xs : list A) : result (list B) :=
  match xs with
  | [] => Ok []
  | x :: xs' => y <- f x ;; ys <- for_each f xs' ;; Ok (y :: ys)
  end.

(** ** Strings *)

Module Str.

(** [skip] characters of a match are still to be dropped; otherwise the
    text is scanned for the next occurrence of [old]. *)
Fixpoint replace_from (old new : string) (skip : nat) (s : string) : string :=
  match s with
  | EmptyString => EmptyString
  | String c s' =>
      match skip with
      | S k => replace_from old new k s'
      | O =>
          if String.prefix old s
          then new ++ replace_from old new (String.length old - 1) s'
          else String c (replace_from old new 0 s')
      end
  end.

(** [s.replace(old, new)] for a non-empty [old]: every occurrence, found from
    left to right without overlap, is replaced. *)
Definition replace (old new s : string) : string := replace_from old new 0 s.

(** The decimal digits of a natural number, most significant first. *)
Definition digits (n : N) : string := NilZero.string_of_uint (N.to_uint n).

Fixpoint zeros (k : nat) : string :=
  match k with
  | O => EmptyString
  | S k' => String "0" (zeros k')
  end.

(** ["%0<width>d" % n] for [n >= 0]: at least [width] digits, zeros on the left. *)
Definition zfill (width : nat) (n : N) : string :=
  let d := digits n in zeros (width - String.length d) ++ d.

(** [c in s]. *)
Fixpoint occurs (c : ascii) (s : string) : bool :=
  match s with
  | EmptyString => false
  | String a s' => Ascii.eqb a c || occurs c s'
  end.

Definition is_digit (c : ascii) : bool :=
  let n := N_of_ascii c in ((48 <=? n) && (n <=? 57))%N.

(** [s] is made of decimal digits only. *)
Fixpoint all_digits (s : string) : bool :=
  match s with
  | EmptyString => true
  | String a s' => is_digit a && all_digits s'
  end.

(** The number that a text of decimal digits writes. *)
Definition numeral (s : string) : option N :=
  option_map N.of_uint (NilZero.uint_of_string s).

(** The last character of a text. *)
Fixpoint last_char (s : string) : option ascii :=
  match s with
  | EmptyString => None
  | String a EmptyString => Some a
  | String _ s' => last_char s'
  end.

End Str.

(** ** XML elements (lxml.etree) *)

Module etree.

Inductive element : Type :=
| Element (tag : string) (attrib : list (string * string))
          (text : option string) (children : list element).

Definition tag (e : element) : string :=
  match e with Element t _ _ _ => t end.
Definition attrib (e : element) : list (string * string) :=
  match e with Element _ a _ _ => a end.
Definition text (e : element) : option string :=
  match e with Element _ _ x _ => x end.
Definition children (e : element) : list element :=
  match e with Element _ _ _ c => c end.

Fixpoint lookup (key : string) (kvs : list (string * string)) : option string :=
  match kvs with
  | [] => None
  | (k, v) :: rest => if String.eqb k key then Some v else lookup key rest
  end.

Fixpoint update (key value : string) (kvs : list (string * string))
  : list (string * string) :=
  match kvs with
  | [] => [(key, value)]
  | (k, v) :: rest =>
      if String.eqb k key then (k, value) :: rest
      else (k, v) :: update key value rest
  end.

(** [e.get(key)]: the attribute, or [None]. *)
Definition get (e : element) (key : string) : option string :=
  lookup key (attrib e).

(** [e.set(key, value)]. *)
Definition set (e : element) (key value : string) : element :=
  match e with Element t a x c => Element t (update key value a) x c end.

(** [e.iterfind(tag)]: the direct children with that tag, in document order. *)
Definition iterfind (e : element) (name : string) : list element :=
  filter (fun c => String.eqb (tag c) name) (children e).

(** [e.find(tag)]: the first direct child with that tag, or [None]. *)
Definition find (e : element) (name : string) : option element :=
  List.find (fun c => String.eqb (tag c) name) (children e).

(** [e.append(child)]. *)
Definition append (e child : element) : element :=
  match e with Element t a x c => Element t a x (c ++ [child])%list end.

(** [child = etree.SubElement(e, tag); child.text = value]: a new last child
    that has the given text and nothing else. *)
Definition SubElement (e : element) (name value : string) : element :=
  append e (Element name [] (Some value) []).

End etree.
Export etree.

(** ** datetime *)

Module datetime.

Inductive timespec : Type :=
| auto | hours | minutes | seconds | milliseconds | microseconds.

(** A [datetime.timedelta], in microseconds. *)
Definition timedelta : Type := Z.

(** A [datetime.datetime]. [tzinfo] is [None] for a naive value and otherwise
    what [utcoffset()] returns, the offset from UTC as a [timedelta]: an offset
    need not be a whole number of minutes. *)
Record datetime : Type := mkdatetime {
  year : N;
  month : N;
  day : N;
  hour : N;
  minute : N;
  second : N;
  microsecond : N;
  tzinfo : option timedelta
}.

(** [timedelta(hours=h, minutes=m, seconds=s)]. *)
Definition offset (h m s : Z) : timedelta := ((h * 60 + m) * 60 + s) * 1000000.

(** [timedelta()]. *)
Definition timedelta0 : timedelta := 0.

(** [td.total_seconds()]. *)
Definition total_seconds (td : timedelta) : R := (IZR td / 1000000)%R.

Definition _format_time (hh mm ss us : N) (ts : timespec) : string :=
  let ts :=
    match ts with
    | auto => if (us =? 0)%N then seconds else microseconds
    | _ => ts
    end in
  let hms := Str.zfill 2 hh ++ ":" ++ Str.zfill 2 mm ++ ":" ++ Str.zfill 2 ss in
  match ts with
  | hours => Str.zfill 2 hh
  | minutes => Str.zfill 2 hh ++ ":" ++ Str.zfill 2 mm
  | milliseconds => hms ++ "." ++ Str.zfill 3 (us / 1000)
  | microseconds => hms ++ "." ++ Str.zfill 6 us
  | _ => hms
  end.

(** [_format_offset(off)]: sign, hours and minutes, then the seconds if
    there are any, then the microseconds if there are any. *)
Definition _format_offset (off : option timedelta) : string :=
  match off with
  | None => ""
  | Some off =>
      let sign := if off <? 0 then "-" else "+" in
      let off := Z.to_N (Z.abs off) in
      let hh := (off / 3600000000)%N in
      let mm := (off mod 3600000000)%N in
      let ss := (mm mod 60000000)%N in
      let mm := (mm / 60000000)%N in
      sign ++ Str.zfill 2 hh ++ ":" ++ Str.zfill 2 mm ++
      (if (ss =? 0)%N then ""
       else ":" ++ Str.zfill 2 (ss / 1000000) ++
            (if (ss mod 1000000 =? 0)%N then ""
             else "." ++ Str.zfill 6 (ss mod 1000000)))
  end.

(** [t.isoformat(timespec=ts)]. *)
Definition isoformat (t : datetime) (ts : timespec) : string :=
  Str.zfill 4 (year t) ++ "-" ++ Str.zfill 2 (month t) ++ "-" ++
  Str.zfill 2 (day t) ++ "T" ++
  _format_time (hour t) (minute t) (second t) (microsecond t) ts ++
  _format_offset (tzinfo t).

Definition _is_leap (y : Z) : bool :=
  (y mod 4 =? 0) && (negb (y mod 100 =? 0) || (y mod 400 =? 0)).

Definition _days_before_year (y : Z) : Z :=
  let y := y - 1 in y * 365 + y / 4 - y / 100 + y / 400.

Definition _DAYS_BEFORE_MONTH : list Z :=
  [-1; 0; 31; 59; 90; 120; 151; 181; 212; 243; 273; 304; 334].

Definition _days_before_month (y m : Z) : Z :=
  nth (Z.to_nat m) _DAYS_BEFORE_MONTH 0 +
  (if (2 <? m) && _is_leap y then 1 else 0).

Definition _ymd2ord (y m d : Z) : Z :=
  _days_before_year y + _days_before_month y m + d.

Definition toordinal (t : datetime) : Z :=
  _ymd2ord (Z.of_N (year t)) (Z.of_N (month t)) (Z.of_N (day t)).

(** [self - other] on two datetimes: the difference of the two wall clocks,
    moved by the difference of the offsets when both have one. *)
Definition sub (self other : datetime) : result timedelta :=
  let secs t :=
    Z.of_N (second t) + Z.of_N (minute t) * 60 + Z.of_N (hour t) * 3600 in
  let base :=
    ((toordinal self - toordinal other) * 86400 + (secs self - secs other))
      * 1000000
    + (Z.of_N (microsecond self) - Z.of_N (microsecond other)) in
  match tzinfo self, tzinfo other with
  | None, None => Ok base
  | Some myoff, Some otoff => Ok (base + otoff - myoff)
  | _, _ =>
      Raise (TypeError "can't subtract offset-naive and offset-aware datetimes")
  end.

End datetime.
Export datetime.

(** ** decimal *)

Module decimal.

(** A [decimal.Decimal]: a finite number, [coefficient * 10 ^ exponent] with
    its sign, [true] for minus; an infinity; or a NaN, quiet or signaling,
    with its payload. A zero has a sign too. *)
Inductive Decimal : Type :=
| Finite (sign : bool) (coefficient : N) (exponent : Z)
| Infinity (sign : bool)
| NaN (sign : bool) (signaling : bool) (payload : N).

(** The finite decimal of a signed coefficient and an exponent. *)
Definition mkDecimal (c e : Z) : Decimal := Finite (c <? 0) (Z.abs_N c) e.

(** The default context: 28 digits, ROUND_HALF_EVEN, exponents from
    [Emin] to [Emax], and the traps InvalidOperation, DivisionByZero and
    Overflow. *)
Definition prec : Z := 28.
Definition Emax : Z := 999999.
Definition Emin : Z := -999999.

(** [context.Etiny()] and [context.Etop()]. *)
Definition Etiny : Z := Emin - prec + 1.
Definition Etop : Z := Emax - prec + 1.

(** A trapped signal raises; the text of the exception is the list of the
    signals. *)
Definition invalid_operation : exn :=
  InvalidOperation "[<class 'decimal.InvalidOperation'>]".
Definition overflow : exn := Overflow "[<class 'decimal.Overflow'>]".

Fixpoint ndigits_from (fuel : nat) (n : N) : Z :=
  match fuel with
  | O => 1
  | S fuel' => if (n <? 10)%N then 1 else 1 + ndigits_from fuel' (n / 10)
  end.

(** [len(d._int)]: how many decimal digits a coefficient has; zero has
    one. *)
Definition ndigits (n : N) : Z := ndigits_from (N.to_nat (N.size n)) n.

(** [c] without its last [k] digits, rounded half to even. *)
Definition round_half_even (c k : N) : N :=
  let p := (10 ^ k)%N in
  let q := (c / p)%N in
  let r := (c mod p)%N in
  if ((p <? 2 * r) || ((2 * r =? p) && N.odd q))%N then (q + 1)%N else q.

(** What [_fix] makes of the coefficient and the exponent of a finite
    decimal; rounding half to even does not look at the sign. *)
Definition _fix_finite (c : N) (e : Z) : result (N * Z) :=
  if (c =? 0)%N then Ok (0%N, Z.min (Z.max e Etiny) Emax)
  else
    let exp_min := ndigits c + e - prec in
    if Etop <? exp_min then Raise overflow
    else
      let self_is_subnormal := exp_min <? Etiny in
      let exp_min := if self_is_subnormal then Etiny else exp_min in
      if e <? exp_min then
        let digits := ndigits c + e - exp_min in
        let coeff :=
          if digits <? 0 then round_half_even 1 1
          else round_half_even c (Z.to_N (ndigits c - digits)) in
        let '(coeff, exp_min) :=
          if prec <? ndigits coeff then ((coeff / 10)%N, exp_min + 1)
          else (coeff, exp_min) in
        if Etop <? exp_min then Raise overflow else Ok (coeff, exp_min)
      else Ok (c, e).

(** [d._fix(context)]: the decimal rounded to the context. A NaN keeps the
    last [prec] digits of its payload; a zero gets its exponent into range; a
    number that has too many digits, or is too small, is rounded, and one
    that is too large overflows. *)
Definition _fix (d : Decimal) : result Decimal :=
  match d with
  | NaN s sig p => Ok (NaN s sig (p mod 10 ^ Z.to_N prec))
  | Infinity _ => Ok d
  | Finite s c e => r <- _fix_finite c e ;; Ok (Finite s (fst r) (snd r))
  end.

(** [self._check_nans(other, context)]: a signaling NaN raises, a quiet NaN
    is the result, [self] before [other]; [None] when neither is a NaN. *)
Definition _check_nans (self other : Decimal) : option (result Decimal) :=
  match self, other with
  | NaN _ true _, _ => Some (Raise invalid_operation)
  | _, NaN _ true _ => Some (Raise invalid_operation)
  | NaN _ false _, _ => Some (_fix self)
  | _, NaN _ false _ => Some (_fix other)
  | _, _ => None
  end.

(** [d.copy_negate()]. *)
Definition copy_negate (d : Decimal) : Decimal :=
  match d with
  | Finite s c e => Finite (negb s) c e
  | Infinity s => Infinity (negb s)
  | NaN s sig p => NaN (negb s) sig p
  end.

(** [_normalize(op1, op2, prec)]: the two operands with the same exponent.
    The one with the larger exponent gets zeros; before that, an operand too
    small to matter is replaced by a 1 just below the digits that count. *)
Definition _normalize (op1 op2 : N * Z) : (N * Z) * (N * Z) :=
  let '(tmp, other) := if snd op1 <? snd op2 then (op2, op1) else (op1, op2) in
  let tmp_len := ndigits (fst tmp) in
  let other_len := ndigits (fst other) in
  let exp := snd tmp + Z.min (-1) (tmp_len - prec - 2) in
  let other := if other_len + snd other - 1 <? exp then (1%N, exp) else other in
  let tmp := ((fst tmp * 10 ^ Z.to_N (snd tmp - snd other))%N, snd other) in
  if snd op1 <? snd op2 then (other, tmp) else (tmp, other).

(** The sum of two finite decimals before it is rounded. *)
Definition add_finite (s1 : bool) (c1 : N) (e1 : Z) (s2 : bool) (c2 : N) (e2 : Z)
  : Decimal :=
  let exp := Z.min e1 e2 in
  if ((c1 =? 0) && (c2 =? 0))%N then Finite (s1 && s2) 0 exp
  else if (c1 =? 0)%N then
    let exp := Z.max exp (e2 - prec - 1) in
    Finite s2 (c2 * 10 ^ Z.to_N (e2 - exp))%N exp
  else if (c2 =? 0)%N then
    let exp := Z.max exp (e1 - prec - 1) in
    Finite s1 (c1 * 10 ^ Z.to_N (e1 - exp))%N exp
  else
    let '((n1, x1), (n2, _)) := _normalize (c1, e1) (c2, e2) in
    if Bool.eqb s1 s2 then Finite s1 (n1 + n2)%N x1
    else if (n1 =? n2)%N then Finite false 0 exp
    else if (n1 <? n2)%N then Finite s2 (n2 - n1)%N x1
    else Finite s1 (n1 - n2)%N x1.

(** [self + other]. *)
Definition add (self other : Decimal) : result Decimal :=
  match _check_nans self other with
  | Some r => r
  | None =>
      match self, other with
      | Infinity s1, Infinity s2 =>
          if Bool.eqb s1 s2 then Ok self else Raise invalid_operation
      | Infinity _, _ => Ok self
      | _, Infinity _ => Ok other
      | Finite s1 c1 e1, Finite s2 c2 e2 => _fix (add_finite s1 c1 e1 s2 c2 e2)
      | _, _ => Ok self
      end
  end.

(** [self - other]: [self + other.copy_negate()], once neither is a NaN. *)
Definition sub (self other : Decimal) : result Decimal :=
  match _check_nans self other with
  | Some r => r
  | None => add self (copy_negate other)
  end.

(** [-self]: the negation of zero is the zero without a sign. *)
Definition neg (self : Decimal) : result Decimal :=
  match self with
  | NaN _ true _ => Raise invalid_operation
  | NaN _ false _ => _fix self
  | Finite s c e => if (c =? 0)%N then _fix (Finite false c e)
                    else _fix (Finite (negb s) c e)
  | Infinity s => _fix (Infinity (negb s))
  end.

(** [(-1) ** sign]. *)
Definition signum (s : bool) : Z := if s then -1 else 1.

(** [self._cmp(other)] for two decimals that are not NaN: -1, 0 or 1. *)
Definition _cmp (self other : Decimal) : Z :=
  match self, other with
  | Finite s1 c1 e1, Finite s2 c2 e2 =>
      if (c1 =? 0)%N then
        if (c2 =? 0)%N then 0 else - signum s2
      else if (c2 =? 0)%N then signum s1
      else if negb s2 && s1 then -1
      else if negb s1 && s2 then 1
      else
        let self_adjusted := e1 + ndigits c1 - 1 in
        let other_adjusted := e2 + ndigits c2 - 1 in
        if self_adjusted =? other_adjusted then
          let self_padded := (c1 * 10 ^ Z.to_N (e1 - e2))%N in
          let other_padded := (c2 * 10 ^ Z.to_N (e2 - e1))%N in
          if (self_padded =? other_padded)%N then 0
          else if (self_padded <? other_padded)%N then - signum s1
          else signum s1
        else if other_adjusted <? self_adjusted then signum s1
        else - signum s1
  | _, _ =>
      let inf d := match d with Infinity s => signum s | _ => 0 end in
      if inf self =? inf other then 0
      else if inf self <? inf other then -1 else 1
  end.

(** [self == other]: a signaling NaN raises, a quiet NaN is equal to
    nothing. *)
Definition eqb (self other : Decimal) : result bool :=
  match _check_nans self other with
  | Some (Raise e) => Raise e
  | Some (Ok _) => Ok false
  | None => Ok (_cmp self other =? 0)
  end.

(** [d.is_nan()]. *)
Definition is_nan (d : Decimal) : bool :=
  match d with
  | NaN _ _ _ => true
  | _ => false
  end.

(** The coefficient and the exponent of a finite decimal. *)
Definition digits_of (d : Decimal) : option (N * Z) :=
  match d with
  | Finite _ c e => Some (c, e)
  | _ => None
  end.

(** The coefficient with its sign. *)
Definition signed (s : bool) (c : N) : Z := if s then - Z.of_N c else Z.of_N c.

(** Two finite decimals with the same digits of which one is the negation
    of the other, or both are zero. *)
Definition opposite (d d' : Decimal) : Prop :=
  match d, d' with
  | Finite s c e, Finite s' c' e' => c' = c /\ e' = e /\ (c <> 0%N -> s' = negb s)
  | _, _ => False
  end.

(** A decimal that is within the context: rounding it changes nothing. *)
Definition fixed (d : Decimal) : Prop := _fix d = Ok d.

(** [float(d)] in exact arithmetic: the real number that a finite decimal
    is. An infinity and a NaN are no real number; they are read as zero
    here, and as what they are in [binary64] below. *)
Definition to_float (d : Decimal) : R :=
  match d with
  | Finite s c e =>
      (IZR (signed s c) * powerRZ 10 e)%R
  | _ => 0%R
  end.

End decimal.
Export decimal(Decimal, Finite, Infinity, NaN, mkDecimal).

(** ** math *)

Module math.

(** [math.radians(x)]. *)
Definition radians (x : R) : R := (x * (PI / 180))%R.

(** [math.sqrt(x)]: a negative argument is a domain error. *)
Definition sqrt (x : R) : result R :=
  if Rlt_dec x 0 then Raise (ValueError "math domain error")
  else Ok (R_sqrt.sqrt x).

(** [math.atan2(y, x)]: the angle of the point [(x, y)], in [(-PI, PI]]. *)
Definition atan2 (y x : R) : R :=
  if Rlt_dec 0 x then atan (y / x)
  else if Rlt_dec x 0 then
    if Rlt_dec y 0 then (atan (y / x) - PI)%R else (atan (y / x) + PI)%R
  else if Rlt_dec 0 y then (PI / 2)%R
  else if Rlt_dec y 0 then (- (PI / 2))%R
  else 0%R.

(** [x / y] on floats. *)
Definition truediv (x y : R) : result R :=
  if Req_dec_T y 0 then Raise (ZeroDivisionError "float division by zero")
  else Ok (x / y)%R.

End math.

(** ** What the class imports *)

(** The parts of the package and of the libraries whose source is not part
    of this development: the validated scalars of [gpx.types], [gpx.link.Link],
    the text forms of [Decimal] and [int], and [dateutil.parser.isoparse]. A
    constructor receives the text of an element or attribute, [None] when
    there is none, and may raise. *)
Record Externals : Type := {
  Latitude : Type;
  Longitude : Type;
  Degrees : Type;
  Fix : Type;
  DGPSStation : Type;
  Link : Type;
  (** [Latitude(text)], [str(lat)] and the number itself (a [Latitude] is a
      [Decimal]); likewise for the other scalars. *)
  Latitude_new : option string -> result Latitude;
  Latitude_str : Latitude -> string;
  Latitude_Decimal : Latitude -> Decimal;
  Longitude_new : option string -> result Longitude;
  Longitude_str : Longitude -> string;
  Longitude_Decimal : Longitude -> Decimal;
  Degrees_new : option string -> result Degrees;
  Degrees_str : Degrees -> string;
  Degrees_Decimal : Degrees -> Decimal;
  (** A [Fix] is a [str]: [Fix_str] is that text. *)
  Fix_new : option string -> result Fix;
  Fix_str : Fix -> string;
  DGPSStation_new : option string -> result DGPSStation;
  DGPSStation_str : DGPSStation -> string;
  (** [Decimal(text)] and [str(d)]; [int(text)] and [str(n)]. *)
  Decimal_new : option string -> result Decimal;
  Decimal_str : Decimal -> string;
  int_new : option string -> result Z;
  int_str : Z -> string;
  (** [isoparse(text)]. *)
  isoparse : option string -> result datetime;
  (** [Link(element)], [link._build()], [link.text] and [link.href]. *)
  Link_new : element -> result Link;
  Link_build : Link -> element;
  Link_text : Link -> option string;
  Link_href : Link -> string
}.

(** Modelled from the spec: [Element._build(tag)] of [gpx.element], which
    creates the root node with the given tag. *)
Definition Element_build (tag_ : string) : element := Element tag_ [] None [].

(** ** A dict, in insertion order *)

Module dict.

Section Dict.
Context {K V : Type} (eqb : K -> K -> bool).

Fixpoint get (k : K) (d : list (K * V)) : option V :=
  match d with
  | [] => None
  | (k', v) :: rest => if eqb k' k then Some v else get k rest
  end.

(** [d[k] = v]: a key that is present keeps its place and takes the new
    value, a new key goes last. *)
Fixpoint set (k : K) (v : V) (d : list (K * V)) : list (K * V) :=
  match d with
  | [] => [(k, v)]
  | (k', v') :: rest =>
      if eqb k' k then (k', v) :: rest else (k', v') :: set k v rest
  end.

End Dict.

End dict.

(** Equality of two optional texts, the keys of the [links] dict. *)
Definition text_eqb (a b : option string) : bool :=
  match a, b with
  | Some x, Some y => String.eqb x y
  | None, None => true
  | _, _ => false
  end.

(** ** The class Waypoint *)

Section Waypoint.

Context (X : Externals).

(** The attributes of a waypoint. [lat] and [lon] are required; an optional
    attribute that is [None] is not set. *)
Record Waypoint : Type := mkWaypoint {
  lat : Latitude X;
  lon : Longitude X;
  ele : option Decimal;
  time : option datetime;
  magvar : option (Degrees X);
  geoidheight : option Decimal;
  name : option string;
  cmt : option string;
  desc : option string;
  src : option string;
  links : list (Link X);
  sym : option string;
  type : option string;
  fix_ : option (Fix X);
  sat : option Z;
  hdop : option Decimal;
  vdop : option Decimal;
  pdop : option Decimal;
  ageofdgpsdata : option Decimal;
  dgpsid : option (DGPSStation X)
}.

(** [if (c := el.find(name)) is not None: field = conv(c.text)]. *)
Definition child {T : Type} (conv : option string -> result T)
    (el : element) (name_ : string) : result (option T) :=
  match find el name_ with
  | Some c => v <- conv (text c) ;; Ok (Some v)
  | None => Ok None
  end.

(** [if (c := el.find(name)) is not None: field = c.text]. *)
Definition child_text (el : element) (name_ : string) : option string :=
  match find el name_ with
  | Some c => text c
  | None => None
  end.

(** [Waypoint(element)]: the attributes as [_parse] sets them, in its order. *)
Definition _parse (el : element) : result Waypoint :=
  lat <- Latitude_new X (get el "lat") ;;
  lon <- Longitude_new X (get el "lon") ;;
  ele <- child (Decimal_new X) el "ele" ;;
  time <- child (isoparse X) el "time" ;;
  magvar <- child (Degrees_new X) el "magvar" ;;
  geoidheight <- child (Decimal_new X) el "geoidheight" ;;
  let name := child_text el "name" in
  let cmt := child_text el "cmt" in
  let desc := child_text el "desc" in
  let src := child_text el "src" in
  links <- for_each (Link_new X) (iterfind el "link") ;;
  let sym := child_text el "sym" in
  let type := child_text el "type" in
  fix_ <- child (Fix_new X) el "fix" ;;
  sat <- child (int_new X) el "sat" ;;
  hdop <- child (Decimal_new X) el "hdop" ;;
  vdop <- child (Decimal_new X) el "vdop" ;;
  pdop <- child (Decimal_new X) el "pdop" ;;
  ageofdgpsdata <- child (Decimal_new X) el "ageofdgpsdata" ;;
  dgpsid <- child (DGPSStation_new X) el "dgpsid" ;;
  Ok (mkWaypoint lat lon ele time magvar geoidheight name cmt desc src links
        sym type fix_ sat hdop vdop pdop ageofdgpsdata dgpsid).

(** The text of the [time] child:
    [t.isoformat(timespec="milliseconds" if t.microsecond else "seconds")
      .replace("+00:00", "Z")]. *)
Definition time_text (t : datetime) : string :=
  Str.replace "+00:00" "Z"
    (isoformat t (if (microsecond t =? 0)%N then seconds else milliseconds)).

(** [if field is not None: c = SubElement(waypoint, name); c.text = str(field)]. *)
Definition emit {T : Type} (str : T -> string) (name_ : string)
    (field : option T) (waypoint : element) : element :=
  match field with
  | Some v => SubElement waypoint name_ (str v)
  | None => waypoint
  end.

(** [self._build(tag)]. *)
Definition _build (self : Waypoint) (tag_ : string) : element :=
  let waypoint := Element_build tag_ in
  let waypoint := set waypoint "lat" (Latitude_str X (lat self)) in
  let waypoint := set waypoint "lon" (Longitude_str X (lon self)) in
  let waypoint := emit (Decimal_str X) "ele" (ele self) waypoint in
  let waypoint := emit time_text "time" (time self) waypoint in
  let waypoint := emit (Degrees_str X) "magvar" (magvar self) waypoint in
  let waypoint := emit (Decimal_str X) "geoidheight" (geoidheight self) waypoint in
  let waypoint := emit (fun s => s) "name" (name self) waypoint in
  let waypoint := emit (fun s => s) "cmt" (cmt self) waypoint in
  let waypoint := emit (fun s => s) "desc" (desc self) waypoint in
  let waypoint := emit (fun s => s) "src" (src self) waypoint in
  let waypoint :=
    fold_left (fun wp link => append wp (Link_build X link)) (links self)
      waypoint in
  let waypoint := emit (fun s => s) "sym" (sym self) waypoint in
  let waypoint := emit (fun s => s) "type" (type self) waypoint in
  let waypoint := emit (Fix_str X) "fix" (fix_ self) waypoint in
  let waypoint := emit (int_str X) "sat" (sat self) waypoint in
  let waypoint := emit (Decimal_str X) "hdop" (hdop self) waypoint in
  let waypoint := emit (Decimal_str X) "vdop" (vdop self) waypoint in
  let waypoint := emit (Decimal_str X) "pdop" (pdop self) waypoint in
  let waypoint :=
    emit (Decimal_str X) "ageofdgpsdata" (ageofdgpsdata self) waypoint in
  let waypoint := emit (DGPSStation_str X) "dgpsid" (dgpsid self) waypoint in
  waypoint.

(** [self._coords]: two or three coordinates. *)
Definition _coords (self : Waypoint) : list Decimal :=
  match ele self with
  | Some e => [Longitude_Decimal X (lon self); Latitude_Decimal X (lat self); e]
  | None => [Longitude_Decimal X (lon self); Latitude_Decimal X (lat self)]
  end.

Record Geometry : Type := mkGeometry {
  geometry_type : string;
  coordinates : list R
}.

Record Properties : Type := mkProperties {
  prop_time : option string;
  prop_magvar : option R;
  prop_geoidheight : option R;
  prop_name : option string;
  prop_cmt : option string;
  prop_desc : option string;
  prop_src : option string;
  prop_links : list (option string * string);
  prop_sym : option string;
  prop_type : option string;
  prop_fix : option (Fix X);
  prop_sat : option Z;
  prop_hdop : option R;
  prop_vdop : option R;
  prop_pdop : option R;
  prop_ageofdgpsdata : option R;
  prop_dgpsid : option string
}.

Record Feature : Type := mkFeature {
  feature_type : string;
  geometry : Geometry;
  properties : Properties
}.

(** [{link.text: link.href for link in links}]. *)
Definition links_dict (ls : list (Link X)) : list (option string * string) :=
  fold_left (fun d link => dict.set text_eqb (Link_text X link) (Link_href X link) d)
    ls [].

(** [self.__geo_interface__]. *)
Definition __geo_interface__ (self : Waypoint) : Feature :=
  mkFeature "Feature"
    (mkGeometry "Point" (map decimal.to_float (_coords self)))
    (mkProperties
       (option_map (fun t => isoformat t auto) (time self))
       (option_map (fun m => decimal.to_float (Degrees_Decimal X m)) (magvar self))
       (option_map decimal.to_float (geoidheight self))
       (name self) (cmt self) (desc self) (src self)
       (links_dict (links self))
       (sym self) (type self) (fix_ self) (sat self)
       (option_map decimal.to_float (hdop self))
       (option_map decimal.to_float (vdop self))
       (option_map decimal.to_float (pdop self))
       (option_map decimal.to_float (ageofdgpsdata self))
       (option_map (DGPSStation_str X) (dgpsid self))).

(** The default of [radius] in [distance_to]. *)
Definition default_radius : Z := 6378137.

(** [self.distance_to(other, radius)]. *)
Definition distance_to (self other : Waypoint) (radius : Z) : result R :=
  let R_ := IZR radius in
  let phi1 := math.radians (decimal.to_float (Latitude_Decimal X (lat self))) in
  let lambda1 := math.radians (decimal.to_float (Longitude_Decimal X (lon self))) in
  let phi2 := math.radians (decimal.to_float (Latitude_Decimal X (lat other))) in
  let lambda2 := math.radians (decimal.to_float (Longitude_Decimal X (lon other))) in
  let dphi := (phi2 - phi1)%R in
  let dlambda := (lambda2 - lambda1)%R in
  let a := (sin (dphi / 2) * sin (dphi / 2)
            + cos phi1 * cos phi2 * sin (dlambda / 2) * sin (dlambda / 2))%R in
  sa <- math.sqrt a ;;
  sb <- math.sqrt (1 - a)%R ;;
  let delta := (2 * math.atan2 sa sb)%R in
  Ok (R_ * delta)%R.

(** [self.duration_to(other)]. *)
Definition duration_to (self other : Waypoint) : result timedelta :=
  match time self, time other with
  | Some t1, Some t2 => datetime.sub t2 t1
  | _, _ => Ok timedelta0
  end.

(** [self.speed_to(other)]. *)
Definition speed_to (self other : Waypoint) : result R :=
  d <- distance_to self other default_radius ;;
  t <- duration_to self other ;;
  math.truediv d (total_seconds t).

(** [self.gain_to(other)]. *)
Definition gain_to (self other : Waypoint) : result Decimal :=
  match ele self, ele other with
  | Some e1, Some e2 => decimal.sub e2 e1
  | _, _ => Ok (mkDecimal 0 (-1))
  end.

End Waypoint.

Arguments mkWaypoint {X}.
Arguments lat {X} w.
Arguments lon {X} w.
Arguments ele {X} w.
Arguments time {X} w.
Arguments magvar {X} w.
Arguments geoidheight {X} w.
Arguments name {X} w.
Arguments cmt {X} w.
Arguments desc {X} w.
Arguments src {X} w.
Arguments links {X} w.
Arguments sym {X} w.
Arguments type {X} w.
Arguments fix_ {X} w.
Arguments sat {X} w.
Arguments hdop {X} w.
Arguments vdop {X} w.
Arguments pdop {X} w.
Arguments ageofdgpsdata {X} w.
Arguments dgpsid {X} w.
Arguments _build {X} self tag_.
Arguments _coords {X} self.
Arguments __geo_interface__ {X} self.
Arguments distance_to {X} self other radius.
Arguments duration_to {X} self other.
Arguments speed_to {X} self other.
Arguments gain_to {X} self other.
Arguments feature_type {X} f.
Arguments geometry {X} f.
Arguments properties {X} f.
Arguments prop_links {X} p.
Arguments prop_time {X} p.

(** ** A reference implementation of what the class imports

    Executable conversions in the formats that Python, dateutil and the
    package document, on which the class can be run. *)

Module Reference.

Definition digit_value (c : ascii) : option N :=
  let n := N_of_ascii c in
  if ((48 <=? n) && (n <=? 57))%N then Some (n - 48)%N else None.

(** Reads the digits a text starts with: their value after [acc], how many
    they are, and the rest of the text. *)
Fixpoint read_digits (s : string) (acc : N) (count : nat) : N * nat * string :=
  match s with
  | String c s' =>
      match digit_value c with
      | Some d => read_digits s' (acc * 10 + d)%N (S count)
      | None => (acc, count, s)
      end
  | EmptyString => (acc, count, s)
  end.

(** Reads exactly [k] digits. *)
Definition read_fixed (k : nat) (s : string) : option (N * string) :=
  let '(v, n, _) := read_digits (String.substring 0 k s) 0 0 in
  if (n =? k)%nat && (String.length (String.substring 0 k s) =? k)%nat
  then Some (v, String.substring k (String.length s - k) s)
  else None.

Definition read_sign (s : string) : bool * string :=
  match s with
  | String "-" s' => (true, s')
  | String "+" s' => (false, s')
  | _ => (false, s)
  end.

Definition signed (negative : bool) (n : N) : Z :=
  if negative then (- Z.of_N n) else Z.of_N n.

(** A letter in lower case. *)
Definition lower (c : ascii) : ascii :=
  let n := N_of_ascii c in
  if ((65 <=? n) && (n <=? 90))%N then ascii_of_N (n + 32) else c.

Fixpoint lowercase (s : string) : string :=
  match s with
  | EmptyString => EmptyString
  | String c s' => String (lower c) (lowercase s')
  end.

(** The text of a special value after its sign: [Inf], [Infinity], or
    [NaN] or [sNaN] and the digits of a payload, in any case of letters. *)
Definition special_of_text (negative : bool) (s : string) : option Decimal :=
  let l := lowercase s in
  if String.eqb l "inf" || String.eqb l "infinity" then Some (Infinity negative)
  else
    let '(signaling, rest) :=
      match l with
      | String "s" r => (true, r)
      | _ => (false, l)
      end in
    if String.prefix "nan" rest then
      match read_digits (String.substring 3 (String.length rest - 3) rest) 0 0 with
      | (p, _, EmptyString) => Some (NaN negative signaling p)
      | _ => None
      end
    else None.

(** [Decimal(text)]: [sign? digits? (. digits?)? (E sign? digits)?] for a
    finite number, or the text of a special value. *)
Definition Decimal_of_text (t : option string) : result Decimal :=
  match t with
  | None => Raise (TypeError "conversion from NoneType to Decimal is not supported")
  | Some s =>
      let invalid := Raise (InvalidOperation "[<class 'decimal.ConversionSyntax'>]") in
      let '(negative, s1) := read_sign s in
      match special_of_text negative s1 with
      | Some d => Ok d
      | None =>
          let '(ip, ni, s2) := read_digits s1 0 0 in
          let '(cf, nf, s3) :=
            match s2 with
            | String "." s2' => read_digits s2' ip 0
            | _ => (ip, O, s2)
            end in
          if (ni + nf =? 0)%nat then invalid
          else
            match s3 with
            | EmptyString => Ok (Finite negative cf (- Z.of_nat nf))
            | String c s4 =>
                if Ascii.eqb c "E" || Ascii.eqb c "e" then
                  let '(eneg, s5) := read_sign s4 in
                  match read_digits s5 0 0 with
                  | (_, O, _) => invalid
                  | (ex, _, EmptyString) =>
                      Ok (Finite negative cf (signed eneg ex - Z.of_nat nf))
                  | _ => invalid
                  end
                else invalid
            end
      end
  end.

(** ["%+d" % n]. *)
Definition signed_text (n : Z) : string :=
  (if n <? 0 then "-" else "+") ++ Str.digits (Z.to_N (Z.abs n)).

(** [str(n)] for an [int]. *)
Definition text_of_int (n : Z) : string :=
  (if n <? 0 then "-" else "") ++ Str.digits (Z.to_N (Z.abs n)).

(** [str(d)]: plain notation when the exponent is not positive and the
    number is not too small, scientific notation otherwise; the name of a
    special value, and the payload of a NaN that has one. *)
Definition text_of_Decimal (d : Decimal) : string :=
  match d with
  | Infinity s => (if s then "-" else "") ++ "Infinity"
  | NaN s sig p =>
      (if s then "-" else "") ++ (if sig then "sNaN" else "NaN") ++
      (if (p =? 0)%N then "" else Str.digits p)
  | Finite s c e =>
      let sign := if s then "-" else "" in
      let int_ := Str.digits c in
      let len := Z.of_nat (String.length int_) in
      let leftdigits := e + len in
      let dotplace :=
        if (e <=? 0) && (-6 <? leftdigits) then leftdigits else 1 in
      let intpart_fracpart :=
        if dotplace <=? 0 then
          "0" ++ "." ++ Str.zeros (Z.to_nat (- dotplace)) ++ int_
        else if len <=? dotplace then
          int_ ++ Str.zeros (Z.to_nat (dotplace - len))
        else
          String.substring 0 (Z.to_nat dotplace) int_ ++ "." ++
          String.substring (Z.to_nat dotplace) (Z.to_nat (len - dotplace)) int_ in
      let exp :=
        if leftdigits =? dotplace then ""
        else "E" ++ signed_text (leftdigits - dotplace) in
      sign ++ intpart_fracpart ++ exp
  end.
(** [int(text)]: an optional sign and digits. *)
Definition int_of_text (t : option string) : result Z :=
  match t with
  | None => Raise (TypeError "int() argument must be a string, a bytes-like object or a real number, not 'NoneType'")
  | Some s =>
      let '(negative, s1) := read_sign s in
      match read_digits s1 0 0 with
      | (_, O, _) => Raise (ValueError "invalid literal for int() with base 10")
      | (v, _, EmptyString) => Ok (signed negative v)
      | _ => Raise (ValueError "invalid literal for int() with base 10")
      end
  end.

(** Modelled from the spec: the validated decimals of [gpx.types], a decimal
    number checked against a range when it is constructed from text. A NaN
    cannot be compared, and comparing it raises. *)
Definition ranged (lo hi : Z) (hi_included : bool) (what : string)
    (t : option string) : result Decimal :=
  d <- Decimal_of_text t ;;
  match d with
  | NaN _ _ _ => Raise decimal.invalid_operation
  | _ =>
      if (decimal._cmp (mkDecimal lo 0) d <=? 0)
         && (if hi_included then decimal._cmp d (mkDecimal hi 0) <=? 0
             else decimal._cmp d (mkDecimal hi 0) <? 0)
      then Ok d
      else Raise (ValueError ("Invalid " ++ what ++ " value"))
  end.

(** Modelled from the spec: [gpx.types.Fix], one of five tokens, matched
    exactly. *)
Inductive fix_token : Type := fix_none | fix_2d | fix_3d | fix_dgps | fix_pps.

Definition text_of_fix (f : fix_token) : string :=
  match f with
  | fix_none => "none"
  | fix_2d => "2d"
  | fix_3d => "3d"
  | fix_dgps => "dgps"
  | fix_pps => "pps"
  end.

Definition fix_of_text (t : option string) : result fix_token :=
  match t with
  | Some s =>
      if String.eqb s "none" then Ok fix_none
      else if String.eqb s "2d" then Ok fix_2d
      else if String.eqb s "3d" then Ok fix_3d
      else if String.eqb s "dgps" then Ok fix_dgps
      else if String.eqb s "pps" then Ok fix_pps
      else Raise (ValueError "Invalid fix value")
  | None => Raise (ValueError "Invalid fix value")
  end.

(** Modelled from the spec: [gpx.types.DGPSStation], an integer from 0 to
    1023. *)
Definition dgpsid_of_text (t : option string) : result Z :=
  n <- int_of_text t ;;
  if (0 <=? n) && (n <=? 1023) then Ok n
  else Raise (ValueError "Invalid DGPS station value").

(** Modelled from the spec: [gpx.link.Link], an [href] attribute and an
    optional [text] child. *)
Record link : Type := mklink {
  href : string;
  link_text : option string
}.

Definition link_of_element (el : element) : result link :=
  match get el "href" with
  | Some h =>
      Ok (mklink h (match find el "text" with Some c => text c | None => None end))
  | None => Raise (ValueError "Invalid link: no href")
  end.

Definition element_of_link (l : link) : element :=
  let e := set (Element_build "link") "href" (href l) in
  match link_text l with
  | Some x => SubElement e "text" x
  | None => e
  end.

Definition days_in_month (y m : N) : N :=
  if (m =? 2)%N then (if datetime._is_leap (Z.of_N y) then 29 else 28)%N
  else if ((m =? 4) || (m =? 6) || (m =? 9) || (m =? 11))%N then 30%N
  else 31%N.

Definition expect (c : ascii) (s : string) : option string :=
  match s with
  | String c' s' => if Ascii.eqb c c' then Some s' else None
  | EmptyString => None
  end.

(** The fraction of a second: up to six digits count, in microseconds. *)
Definition read_fraction (s : string) : option (N * string) :=
  match s with
  | String c s' =>
      if Ascii.eqb c "." || Ascii.eqb c "," then
        match read_digits s' 0 0 with
        | (_, O, _) => None
        | (_, _, rest) =>
            let '(v, k, _) := read_digits (String.substring 0 6 s') 0 0 in
            Some ((v * 10 ^ N.of_nat (6 - k))%N, rest)
        end
      else Some (0%N, s)
  | EmptyString => Some (0%N, s)
  end.

(** [_parse_tzstr(tzstr)]: [Z], or a sign, two digits of hours and, with or
    without a colon before them, the minutes. *)
Definition read_offset (s : string) : result (option timedelta) :=
  if String.eqb s "Z" || String.eqb s "z" then Ok (Some 0)
  else
    let n := String.length s in
    if negb ((n =? 3) || (n =? 5) || (n =? 6))%nat
    then Raise (ValueError "Time zone offset must be 1, 3, 5 or 6 characters")
    else
      match s with
      | String c s' =>
          if Ascii.eqb c "-" || Ascii.eqb c "+" then
            let after_hours := String.substring 2 (n - 3) s' in
            let minutes_text :=
              match after_hours with
              | String ":" r => r
              | r => r
              end in
            let minutes :=
              if (n =? 3)%nat then Some 0%N
              else if Str.all_digits minutes_text then Str.numeral minutes_text
              else None in
            match read_fixed 2 s', minutes with
            | Some (hh, _), Some mm =>
                if ((hh =? 0) && (mm =? 0))%N then Ok (Some 0)
                else if (59 <? mm)%N
                then Raise (ValueError "Invalid minutes in time zone offset")
                else if (23 <? hh)%N
                then Raise (ValueError "Invalid hours in time zone offset")
                else
                  let off := datetime.offset (Z.of_N hh) (Z.of_N mm) 0 in
                  Ok (Some (if Ascii.eqb c "-" then - off else off))
            | _, _ => Raise (ValueError "invalid literal for int() with base 10")
            end
          else Raise (ValueError "Time zone offset requires sign")
      | EmptyString => Raise (ValueError "Time zone offset requires sign")
      end.

Definition option_bind {A B : Type} (m : option A) (k : A -> option B) : option B :=
  match m with
  | Some a => k a
  | None => None
  end.

(** [isoparse(text)] for a date and time in the extended format,
    [YYYY-MM-DDTHH:MM:SS], a fraction and an offset being optional. *)
Definition datetime_of_text (t : option string) : result datetime :=
  match t with
  | None => Raise (TypeError "Parser must be a string or character stream, not NoneType")
  | Some s =>
      let parsed :=
        option_bind (read_fixed 4 s) (fun '(y, s) =>
        option_bind (expect "-" s) (fun s =>
        option_bind (read_fixed 2 s) (fun '(mo, s) =>
        option_bind (expect "-" s) (fun s =>
        option_bind (read_fixed 2 s) (fun '(d, s) =>
        option_bind (expect "T" s) (fun s =>
        option_bind (read_fixed 2 s) (fun '(h, s) =>
        option_bind (expect ":" s) (fun s =>
        option_bind (read_fixed 2 s) (fun '(mi, s) =>
        option_bind (expect ":" s) (fun s =>
        option_bind (read_fixed 2 s) (fun '(sec, s) =>
        option_bind (read_fraction s) (fun '(us, s) =>
        Some (y, mo, d, h, mi, sec, us, s))))))))))))) in
      match parsed with
      | Some (y, mo, d, h, mi, sec, us, rest) =>
          tz <- match rest with
                | EmptyString => Ok None
                | String c _ =>
                    if Str.occurs c "-+Zz" then read_offset rest
                    else Raise (ValueError "Unused components in ISO string")
                end ;;
          if ((1 <=? y) && (1 <=? mo) && (mo <=? 12) && (1 <=? d)
              && (d <=? days_in_month y mo) && (h <? 24) && (mi <? 60)
              && (sec <? 60))%N
          then Ok (mkdatetime y mo d h mi sec us tz)
          else Raise (ValueError "String contains unknown ISO components")
      | None => Raise (ValueError "String contains unknown ISO components")
      end
  end.

End Reference.

(** The externals as the reference conversions give them. *)
Definition reference : Externals := {|
  Latitude := Decimal;
  Longitude := Decimal;
  Degrees := Decimal;
  Fix := Reference.fix_token;
  DGPSStation := Z;
  Link := Reference.link;
  Latitude_new := Reference.ranged (-90) 90 true "latitude";
  Latitude_str := Reference.text_of_Decimal;
  Latitude_Decimal := fun d => d;
  Longitude_new := Reference.ranged (-180) 180 true "longitude";
  Longitude_str := Reference.text_of_Decimal;
  Longitude_Decimal := fun d => d;
  Degrees_new := Reference.ranged 0 360 false "degrees";
  Degrees_str := Reference.text_of_Decimal;
  Degrees_Decimal := fun d => d;
  Fix_new := Reference.fix_of_text;
  Fix_str := Reference.text_of_fix;
  DGPSStation_new := Reference.dgpsid_of_text;
  DGPSStation_str := Reference.text_of_int;
  Decimal_new := Reference.Decimal_of_text;
  Decimal_str := Reference.text_of_Decimal;
  int_new := Reference.int_of_text;
  int_str := Reference.text_of_int;
  isoparse := Reference.datetime_of_text;
  Link_new := Reference.link_of_element;
  Link_build := Reference.element_of_link;
  Link_text := Reference.link_text;
  Link_href := Reference.href
|}.

(** ** The formulas and orders that the properties are stated against *)

(** The haversine of the central angle between two points, from their
    latitudes and longitudes in radians. *)
Definition haversine (phi1 lambda1 phi2 lambda2 : R) : R :=
  ((sin ((phi2 - phi1) / 2))² +
   cos phi1 * cos phi2 * (sin ((lambda2 - lambda1) / 2))²)%R.


(** A coordinate of a waypoint, as a float in degrees and in radians. *)
Definition degrees_of (d : Decimal) : R := decimal.to_float d.

Definition latitude_rad {X : Externals} (w : Waypoint X) : R :=
  math.radians (degrees_of (Latitude_Decimal X (lat w))).

Definition longitude_rad {X : Externals} (w : Waypoint X) : R :=
  math.radians (degrees_of (Longitude_Decimal X (lon w))).

(** The last link of a list that has the given text. *)
Definition last_with_text {X : Externals} (k : option string)
    (ls : list (Link X)) : option (Link X) :=
  List.find (fun l => text_eqb (Link_text X l) k) (rev ls).

(** ** Waypoints to run the class on *)

Module Examples.

Definition noon : datetime := mkdatetime 2020 1 2 12 0 0 0 (Some 0).

(** Midnight in Amsterdam on the first day of 1900, in local mean time: 19
    minutes and 32 seconds east of UTC. *)
Definition amsterdam_1900 : datetime :=
  mkdatetime 1900 1 1 0 0 0 0 (Some (datetime.offset 0 19 32)).

(** Half past twelve and 678901 microseconds, two hours east of UTC. *)
Definition half_past : datetime :=
  mkdatetime 2020 1 2 12 30 5 678901 (Some (datetime.offset 2 0 0)).

(** A waypoint that has nothing but its coordinates. *)
Definition bare (lat_ lon_ : Decimal) : Waypoint reference :=
  mkWaypoint (X := reference) lat_ lon_ None None None None None None None None
    [] None None None None None None None None None.

(** 50 N 0 E and 50 N 1 E. *)
Definition A : Waypoint reference := bare (mkDecimal 500 (-1)) (mkDecimal 0 (-1)).
Definition B : Waypoint reference := bare (mkDecimal 500 (-1)) (mkDecimal 10 (-1)).

Definition three_links : list Reference.link :=
  [Reference.mklink "http://a.example" (Some "map");
   Reference.mklink "http://b.example" None;
   Reference.mklink "http://c.example" (Some "map")].

(** A waypoint that has every attribute set. *)
Definition full : Waypoint reference :=
  mkWaypoint (X := reference)
    (mkDecimal 505 (-1)) (mkDecimal (-12345) (-4))
    (Some (mkDecimal 1234500 (-4))) (Some half_past)
    (Some (mkDecimal 12 0)) (Some (mkDecimal 5 3))
    (Some "Summit") (Some "") (Some "a hill") (Some "survey")
    three_links
    (Some "Flag") (Some "peak")
    (Some Reference.fix_3d) (Some 7)
    (Some (mkDecimal 11 (-1))) (Some (mkDecimal 0 0)) (Some (mkDecimal 1 (-7)))
    (Some (mkDecimal 25 (-1))) (Some 1023).

(** A waypoint in Amsterdam with the local mean time of 1900. *)
Definition lmt : Waypoint reference :=
  mkWaypoint (X := reference) (mkDecimal 523731 (-4)) (mkDecimal 48834 (-4))
    None (Some amsterdam_1900) None None None None None None
    [] None None None None None None None None None.

(** A waypoint whose elevation is not a number: what is stored for an [ele]
    child with the text [NaN]. *)
Definition adrift : Waypoint reference :=
  mkWaypoint (X := reference) (mkDecimal 505 (-1)) (mkDecimal 1 0)
    (Some (NaN false false 0)) None None None None None None None
    [] None None None None None None None None None.

(** [full] without its elevation and with its time at noon UTC. *)
Definition flat : Waypoint reference :=
  mkWaypoint (X := reference)
    (lat full) (lon full) None (Some noon) (magvar full) (geoidheight full)
    (name full) (cmt full) (desc full) (src full) (links full) (sym full)
    (type full) (fix_ full) (sat full) (hdop full) (vdop full) (pdop full)
    (ageofdgpsdata full) (dgpsid full).

End Examples.

(** ** Parsing, field by field *)

(** The exception of a call, if it raised. *)
Definition failure {A : Type} (r : result A) : option exn :=
  match r with
  | Ok _ => None
  | Raise e => Some e
  end.

(** The first exception of a list of outcomes. *)
Fixpoint first_failure (outcomes : list (option exn)) : option exn :=
  match outcomes with
  | [] => None
  | Some e :: _ => Some e
  | None :: rest => first_failure rest
  end.

Section Conversions.

Context (X : Externals).

(** How the conversion of the child [name_] of [el] fails, if there is such
    a child and its text does not convert. *)
Definition child_failure {T : Type} (conv : option string -> result T)
    (el : element) (name_ : string) : option exn :=
  match find el name_ with
  | Some c => failure (conv (text c))
  | None => None
  end.

(** The outcome of every conversion that parsing an element asks for, in the
    order of [_parse]: the two attributes, the children that are converted,
    and every [link] child at its place between them. *)
Definition conversions (el : element) : list (option exn) :=
  [ failure (Latitude_new X (get el "lat"));
    failure (Longitude_new X (get el "lon"));
    child_failure (Decimal_new X) el "ele";
    child_failure (isoparse X) el "time";
    child_failure (Degrees_new X) el "magvar";
    child_failure (Decimal_new X) el "geoidheight" ]
  ++ map (fun c => failure (Link_new X c)) (iterfind el "link")
  ++ [ child_failure (Fix_new X) el "fix";
       child_failure (int_new X) el "sat";
       child_failure (Decimal_new X) el "hdop";
       child_failure (Decimal_new X) el "vdop";
       child_failure (Decimal_new X) el "pdop";
       child_failure (Decimal_new X) el "ageofdgpsdata";
       child_failure (DGPSStation_new X) el "dgpsid" ].

End Conversions.

(** ** The optional attributes and their tags *)

Inductive field : Type :=
| f_ele | f_time | f_magvar | f_geoidheight
| f_name | f_cmt | f_desc | f_src | f_sym | f_type
| f_fix | f_sat | f_hdop | f_vdop | f_pdop | f_ageofdgpsdata | f_dgpsid.

Definition field_tag (f : field) : string :=
  match f with
  | f_ele => "ele" | f_time => "time" | f_magvar => "magvar"
  | f_geoidheight => "geoidheight"
  | f_name => "name" | f_cmt => "cmt" | f_desc => "desc" | f_src => "src"
  | f_sym => "sym" | f_type => "type"
  | f_fix => "fix" | f_sat => "sat"
  | f_hdop => "hdop" | f_vdop => "vdop" | f_pdop => "pdop"
  | f_ageofdgpsdata => "ageofdgpsdata" | f_dgpsid => "dgpsid"
  end.

Definition is_some {T : Type} (o : option T) : bool :=
  match o with Some _ => true | None => false end.

(** [field is not None]. *)
Definition is_set {X : Externals} (w : Waypoint X) (f : field) : bool :=
  match f with
  | f_ele => is_some (ele w) | f_time => is_some (time w)
  | f_magvar => is_some (magvar w) | f_geoidheight => is_some (geoidheight w)
  | f_name => is_some (name w) | f_cmt => is_some (cmt w)
  | f_desc => is_some (desc w) | f_src => is_some (src w)
  | f_sym => is_some (sym w) | f_type => is_some (type w)
  | f_fix => is_some (fix_ w) | f_sat => is_some (sat w)
  | f_hdop => is_some (hdop w) | f_vdop => is_some (vdop w)
  | f_pdop => is_some (pdop w) | f_ageofdgpsdata => is_some (ageofdgpsdata w)
  | f_dgpsid => is_some (dgpsid w)
  end.

(** Every link of the waypoint builds a [link] element. *)
Definition links_build_link {X : Externals} (w : Waypoint X) : Prop :=
  Forall (fun l => tag (Link_build X l) = "link") (links w).

(** ** The text of a time, as the format asks for it *)

(** What is written of an offset after its hours and minutes: nothing when
    it is a whole number of minutes, and otherwise its seconds, with six
    digits of fraction when they are not whole. [ss] is in microseconds. *)
Definition offset_seconds (ss : N) : string :=
  if (ss =? 0)%N then ""
  else ":" ++ Str.zfill 2 (ss / 1000000) ++
       (if (ss mod 1000000 =? 0)%N then ""
        else "." ++ Str.zfill 6 (ss mod 1000000)).

(** The offset from UTC as the [time] child has it: nothing for a time
    without one, [Z] for zero, and sign, hours and minutes for an offset of
    whole minutes. An offset that is not of whole minutes has its seconds
    after that, and [Z] stands for the hours and minutes of an offset from
    zero to less than a minute. *)
Definition designator (off : option timedelta) : string :=
  match off with
  | None => ""
  | Some off =>
      let a := Z.to_N (Z.abs off) in
      let ss := ((a mod 3600000000) mod 60000000)%N in
      if (0 <=? off) && (off <? 60000000) then "Z" ++ offset_seconds ss
      else
        (if off <? 0 then "-" else "+") ++
        Str.zfill 2 (a / 3600000000) ++ ":" ++
        Str.zfill 2 (a mod 3600000000 / 60000000) ++ offset_seconds ss
  end.

(** The text of a time in the layout of ISO 8601, to the second, or to the
    millisecond when the microseconds are not zero, followed by the
    designator of its offset. *)
Definition iso8601 (t : datetime) : string :=
  Str.zfill 4 (year t) ++ "-" ++ Str.zfill 2 (month t) ++ "-" ++
  Str.zfill 2 (day t) ++ "T" ++
  Str.zfill 2 (hour t) ++ ":" ++ Str.zfill 2 (minute t) ++ ":" ++
  Str.zfill 2 (second t) ++
  (if (microsecond t =? 0)%N then ""
   else "." ++ Str.zfill 3 (microsecond t / 1000)) ++
  designator (tzinfo t).

(** A time at the precision it is written with: whole milliseconds. *)
Definition at_written_precision (t : datetime) : datetime :=
  mkdatetime (year t) (month t) (day t) (hour t) (minute t) (second t)
    (microsecond t / 1000 * 1000) (tzinfo t).

(** ** Round trips of the imported conversions *)

(** The text of [v] converts back to [v]. *)
Definition roundtrips {T : Type} (new : option string -> result T)
    (str : T -> string) (v : T) : Prop :=
  new (Some (str v)) = Ok v.

Definition opt_roundtrips {T : Type} (new : option string -> result T)
    (str : T -> string) (o : option T) : Prop :=
  match o with
  | Some v => roundtrips new str v
  | None => True
  end.

(** The values of the attributes of [w] convert back from their texts: each
    scalar from its [str], the time from its ISO 8601 text at the precision
    of that text, and each link from the [link] element it builds. *)
Definition values_roundtrip {X : Externals} (w : Waypoint X) : Prop :=
  roundtrips (Latitude_new X) (Latitude_str X) (lat w)
  /\ roundtrips (Longitude_new X) (Longitude_str X) (lon w)
  /\ opt_roundtrips (Decimal_new X) (Decimal_str X) (ele w)
  /\ match time w with
     | Some t => isoparse X (Some (iso8601 t)) = Ok (at_written_precision t)
     | None => True
     end
  /\ opt_roundtrips (Degrees_new X) (Degrees_str X) (magvar w)
  /\ opt_roundtrips (Decimal_new X) (Decimal_str X) (geoidheight w)
  /\ Forall (fun l => tag (Link_build X l) = "link"
                      /\ Link_new X (Link_build X l) = Ok l) (links w)
  /\ opt_roundtrips (Fix_new X) (Fix_str X) (fix_ w)
  /\ opt_roundtrips (int_new X) (int_str X) (sat w)
  /\ opt_roundtrips (Decimal_new X) (Decimal_str X) (hdop w)
  /\ opt_roundtrips (Decimal_new X) (Decimal_str X) (vdop w)
  /\ opt_roundtrips (Decimal_new X) (Decimal_str X) (pdop w)
  /\ opt_roundtrips (Decimal_new X) (Decimal_str X) (ageofdgpsdata w)
  /\ opt_roundtrips (DGPSStation_new X) (DGPSStation_str X) (dgpsid w).

(** [w] with its time at the precision it is written with. *)
Definition as_written {X : Externals} (w : Waypoint X) : Waypoint X :=
  mkWaypoint (lat w) (lon w) (ele w)
    (option_map at_written_precision (time w))
    (magvar w) (geoidheight w) (name w) (cmt w) (desc w) (src w) (links w)
    (sym w) (type w) (fix_ w) (sat w) (hdop w) (vdop w) (pdop w)
    (ageofdgpsdata w) (dgpsid w).

(** The child that [emit] adds for an attribute, if it is set. *)
Definition emitted {T : Type} (str : T -> string) (name_ : string)
    (field : option T) : list element :=
  match field with
  | Some v => [Element name_ [] (Some (str v)) []]
  | None => []
  end.

(** The children of the element, in their order: one per attribute that is
    set, the links between [src] and [sym]. *)
Definition built_children {X : Externals} (w : Waypoint X) : list element :=
  (emitted (Decimal_str X) "ele" (ele w) ++
   emitted time_text "time" (time w) ++
   emitted (Degrees_str X) "magvar" (magvar w) ++
   emitted (Decimal_str X) "geoidheight" (geoidheight w) ++
   emitted (fun s => s) "name" (name w) ++
   emitted (fun s => s) "cmt" (cmt w) ++
   emitted (fun s => s) "desc" (desc w) ++
   emitted (fun s => s) "src" (src w) ++
   map (Link_build X) (links w) ++
   emitted (fun s => s) "sym" (sym w) ++
   emitted (fun s => s) "type" (type w) ++
   emitted (Fix_str X) "fix" (fix_ w) ++
   emitted (int_str X) "sat" (sat w) ++
   emitted (Decimal_str X) "hdop" (hdop w) ++
   emitted (Decimal_str X) "vdop" (vdop w) ++
   emitted (Decimal_str X) "pdop" (pdop w) ++
   emitted (Decimal_str X) "ageofdgpsdata" (ageofdgpsdata w) ++
   emitted (DGPSStation_str X) "dgpsid" (dgpsid w))%list.

(** [d[link.text] = link.href]. *)
Definition add_link {X : Externals} (d : list (option string * string))
    (l : Link X) : list (option string * string) :=
  dict.set text_eqb (Link_text X l) (Link_href X l) d.

(** ** More of the class: the defaults and the texts *)

(** The attributes as [__init__] leaves them, once [lat] and [lon] are
    given: no optional attribute is set and there is no link. *)
Definition Waypoint_init {X : Externals} (lat_ : Latitude X) (lon_ : Longitude X)
  : Waypoint X :=
  mkWaypoint lat_ lon_ None None None None None None None None
    [] None None None None None None None None None.

(** The text that [_build] gives the child of an optional attribute. *)
Definition field_text {X : Externals} (w : Waypoint X) (f : field) : option string :=
  match f with
  | f_ele => option_map (Decimal_str X) (ele w)
  | f_time => option_map time_text (time w)
  | f_magvar => option_map (Degrees_str X) (magvar w)
  | f_geoidheight => option_map (Decimal_str X) (geoidheight w)
  | f_name => name w
  | f_cmt => cmt w
  | f_desc => desc w
  | f_src => src w
  | f_sym => sym w
  | f_type => type w
  | f_fix => option_map (Fix_str X) (fix_ w)
  | f_sat => option_map (int_str X) (sat w)
  | f_hdop => option_map (Decimal_str X) (hdop w)
  | f_vdop => option_map (Decimal_str X) (vdop w)
  | f_pdop => option_map (Decimal_str X) (pdop w)
  | f_ageofdgpsdata => option_map (Decimal_str X) (ageofdgpsdata w)
  | f_dgpsid => option_map (DGPSStation_str X) (dgpsid w)
  end.

(** The attributes that are free text. *)
Definition is_text_field (f : field) : bool :=
  match f with
  | f_name | f_cmt | f_desc | f_src | f_sym | f_type => true
  | _ => false
  end.

(** The tags of the children that [_parse] looks for with [find]. *)
Definition found_tags : list string :=
  ["ele"; "time"; "magvar"; "geoidheight"; "name"; "cmt"; "desc"; "src";
   "sym"; "type"; "fix"; "sat"; "hdop"; "vdop"; "pdop"; "ageofdgpsdata";
   "dgpsid"].

(** Some child of the list has the tag. *)
Definition has_tag (n : string) (cs : list element) : bool :=
  existsb (fun c => String.eqb (tag c) n) cs.

(** The pairs of a dict that the links give when no text repeats. *)
Definition link_items {X : Externals} (ls : list (Link X))
  : list (option string * string) :=
  map (fun l => (Link_text X l, Link_href X l)) ls.

(** The opposite of a result that is a float. *)
Definition opp_result (r : result R) : result R :=
  match r with
  | Ok v => Ok (- v)%R
  | Raise e => Raise e
  end.

(** A time to the second, without its offset: [YYYY-MM-DDTHH:MM:SS]. *)
Definition iso_seconds (t : datetime) : string :=
  Str.zfill 4 (year t) ++ "-" ++ Str.zfill 2 (month t) ++ "-" ++
  Str.zfill 2 (day t) ++ "T" ++
  Str.zfill 2 (hour t) ++ ":" ++ Str.zfill 2 (minute t) ++ ":" ++
  Str.zfill 2 (second t).

(** * Properties *)

(** ** Decimal arithmetic *)

Module decimal_facts.
Import decimal.

Lemma ndigits_from_pos (fuel : nat) (n : N) : 1 <= ndigits_from fuel n.
Proof.
  revert n; induction fuel as [|fuel IH]; intro n; cbn [ndigits_from]; [lia|].
  destruct (n <? 10)%N; [lia|]. specialize (IH (n / 10)%N). lia.
Qed.

Lemma ndigits_pos (n : N) : 1 <= ndigits n.
Proof. apply ndigits_from_pos. Qed.

Lemma ndigits_from_spec (fuel : nat) (n : N) :
  (0 < n < 2 ^ N.of_nat fuel)%N ->
  10 ^ (ndigits_from fuel n - 1) <= Z.of_N n < 10 ^ ndigits_from fuel n.
Proof.
  revert n; induction fuel as [|fuel IH]; intros n Hn.
  - change (2 ^ N.of_nat 0)%N with 1%N in Hn. lia.
  - cbn [ndigits_from]. destruct (n <? 10)%N eqn:E.
    + apply N.ltb_lt in E. change (10 ^ (1 - 1)) with 1. change (10 ^ 1) with 10. lia.
    + apply N.ltb_ge in E.
      assert (Hq : (0 < n / 10 < 2 ^ N.of_nat fuel)%N).
      { rewrite Nat2N.inj_succ, N.pow_succ_r' in Hn.
        split.
        - apply N.div_str_pos. lia.
        - apply N.Div0.div_lt_upper_bound. lia. }
      specialize (IH _ Hq).
      pose proof (ndigits_from_pos fuel (n / 10)) as Hp.
      set (k := ndigits_from fuel (n / 10)) in *.
      replace (1 + k - 1) with (Z.succ (k - 1)) by lia.
      replace (1 + k) with (Z.succ k) by lia.
      rewrite !Z.pow_succ_r by lia.
      pose proof (N.div_mod n 10 ltac:(discriminate)) as D.
      pose proof (N.mod_lt n 10 ltac:(discriminate)) as L.
      set (q := (n / 10)%N) in *. set (r := (n mod 10)%N) in *.
      set (lo := 10 ^ (k - 1)) in *. set (hi := 10 ^ k) in *.
      clearbody q r lo hi. lia.
Qed.

(** A coefficient that is not zero has [ndigits] digits. *)
Lemma ndigits_spec (n : N) :
  (0 < n)%N -> 10 ^ (ndigits n - 1) <= Z.of_N n < 10 ^ ndigits n.
Proof.
  intro H. apply ndigits_from_spec. split; [assumption|].
  rewrite N2Nat.id. apply N.size_gt.
Qed.

Lemma ndigits_upper (n : N) : Z.of_N n < 10 ^ ndigits n.
Proof.
  destruct (N.eq_dec n 0) as [->|H]; [reflexivity|].
  apply ndigits_spec. lia.
Qed.

Lemma ndigits_le (n : N) (k : Z) :
  1 <= k -> Z.of_N n < 10 ^ k -> ndigits n <= k.
Proof.
  intros Hk Hn. destruct (N.eq_dec n 0) as [->|H]; [exact Hk|].
  pose proof (ndigits_spec n ltac:(lia)) as [Hlo _].
  pose proof (ndigits_pos n) as Hp.
  destruct (Z_le_gt_dec (ndigits n) k) as [|Hgt]; [assumption|exfalso].
  assert (10 ^ k <= 10 ^ (ndigits n - 1)) by (apply Z.pow_le_mono_r; lia).
  lia.
Qed.

Lemma round_half_even_le (c k : N) : (round_half_even c k <= c / 10 ^ k + 1)%N.
Proof. unfold round_half_even. destruct (_ || _); lia. Qed.

(** A coefficient and an exponent that are in the range of the context stay
    as they are. *)
Lemma _fix_finite_id (c : N) (e : Z) :
  (c = 0%N -> Etiny <= e <= Emax) ->
  (c <> 0%N -> ndigits c <= prec /\ Etiny <= e /\ ndigits c + e - prec <= Etop) ->
  _fix_finite c e = Ok (c, e).
Proof.
  intros Hz Hn. unfold _fix_finite.
  destruct (c =? 0)%N eqn:E.
  - apply N.eqb_eq in E. destruct (Hz E). subst c. do 2 f_equal. lia.
  - apply N.eqb_neq in E. destruct (Hn E) as (Hd & He & Ho).
    rewrite (proj2 (Z.ltb_ge _ _) Ho).
    destruct (ndigits c + e - prec <? Etiny);
      now rewrite (proj2 (Z.ltb_ge _ _)) by lia.
Qed.

(** What [_fix] returns is in the range of the context: at most [prec]
    digits, an exponent not below [Etiny], and no more than [Emax]. *)
Lemma _fix_finite_range (c : N) (e : Z) (c' : N) (e' : Z) :
  _fix_finite c e = Ok (c', e') ->
  Z.of_N c' < 10 ^ prec /\ Etiny <= e'
  /\ (c' = 0%N -> e' <= Emax)
  /\ (c' <> 0%N -> ndigits c' + e' - prec <= Etop).
Proof.
  unfold _fix_finite.
  assert (Hprec : 0 < 10 ^ prec) by (apply Z.pow_pos_nonneg; unfold prec; lia).
  assert (Htop : Etop <= Emax) by (unfold Etop, Emax, prec; lia).
  assert (Hfin : forall x y, Z.of_N x < 10 ^ prec -> Etiny <= y <= Etop ->
            Z.of_N x < 10 ^ prec /\ Etiny <= y /\ (x = 0%N -> y <= Emax)
            /\ (x <> 0%N -> ndigits x + y - prec <= Etop)).
  { intros x y Hx Hy. repeat split; try lia.
    intros _. pose proof (ndigits_le x prec ltac:(unfold prec; lia) Hx). lia. }
  destruct (c =? 0)%N eqn:E.
  - intros [= <- <-].
    assert (Etiny <= Emax) by (unfold Etiny, Emin, Emax, prec; lia).
    repeat split; try lia.
  - apply N.eqb_neq in E.
    pose proof (ndigits_upper c) as Hup. pose proof (ndigits_pos c) as Hpos.
    set (nd := ndigits c) in *.
    destruct (Etop <? nd + e - prec) eqn:Hov; [discriminate|].
    apply Z.ltb_ge in Hov.
    set (exp_min := if nd + e - prec <? Etiny then Etiny else nd + e - prec).
    assert (Hmin : Etiny <= exp_min <= Etop /\ nd + e - prec <= exp_min).
    { subst exp_min. destruct (nd + e - prec <? Etiny) eqn:Hs;
        [apply Z.ltb_lt in Hs|apply Z.ltb_ge in Hs]; unfold Etiny, Etop, Emin, Emax, prec in *; lia. }
    destruct Hmin as [Hmin Hlow].
    destruct (e <? exp_min) eqn:Hr.
    + apply Z.ltb_lt in Hr.
      set (digits := nd + e - exp_min).
      set (coeff := if digits <? 0 then round_half_even 1 1
                    else round_half_even c (Z.to_N (nd - digits))).
      assert (Hcoeff : Z.of_N coeff <= 10 ^ prec).
      { subst coeff. destruct (digits <? 0) eqn:Hd.
        - change (round_half_even 1 1) with 0%N. change (Z.of_N 0) with 0. lia.
        - apply Z.ltb_ge in Hd.
          pose proof (round_half_even_le c (Z.to_N (nd - digits))) as Hle.
          assert (Hq : Z.of_N (c / 10 ^ Z.to_N (nd - digits)) < 10 ^ digits).
          { rewrite N2Z.inj_div, N2Z.inj_pow, Z2N.id by (subst digits; lia).
            change (Z.of_N 10) with 10.
            apply Z.div_lt_upper_bound; [apply Z.pow_pos_nonneg; subst digits; lia|].
            rewrite <- Z.pow_add_r by (subst digits; lia).
            now replace (nd - digits + digits) with nd by lia. }
          assert (10 ^ digits <= 10 ^ prec)
            by (apply Z.pow_le_mono_r; subst digits; lia).
          lia. }
      clearbody coeff.
      destruct (prec <? ndigits coeff) eqn:Hlen.
      * destruct (Etop <? exp_min + 1) eqn:Hov'; [discriminate|].
        apply Z.ltb_ge in Hov'. intros [= <- <-]. apply Hfin; [|lia].
        rewrite N2Z.inj_div. change (Z.of_N 10) with 10.
        apply Z.div_lt_upper_bound; lia.
      * destruct (Etop <? exp_min) eqn:Hov'; [discriminate|].
        apply Z.ltb_ge in Hlen. intros [= <- <-]. apply Hfin; [|lia].
        pose proof (ndigits_upper coeff).
        assert (10 ^ ndigits coeff <= 10 ^ prec)
          by (apply Z.pow_le_mono_r; [lia|assumption]).
        lia.
    + apply Z.ltb_ge in Hr. intros [= <- <-].
      assert (10 ^ nd <= 10 ^ prec) by (apply Z.pow_le_mono_r; lia).
      repeat split; lia.
Qed.

(** What [_fix] returns stays as it is under [_fix]. *)
Lemma _fix_finite_fixed (c : N) (e : Z) (c' : N) (e' : Z) :
  _fix_finite c e = Ok (c', e') -> _fix_finite c' e' = Ok (c', e').
Proof.
  intro H. apply _fix_finite_range in H. destruct H as (Hc & He & Hz & Hn).
  apply _fix_finite_id.
  - intro E. split; [assumption|now apply Hz].
  - intro E. repeat split; [|assumption|now apply Hn].
    apply ndigits_le; [unfold prec; lia|assumption].
Qed.

Lemma _fix_finite_zero (e : Z) : exists e', _fix_finite 0 e = Ok (0%N, e').
Proof. eexists. reflexivity. Qed.

(** The two operands have the same exponent after [_normalize]. *)
Lemma _normalize_exp (p1 p2 : N * Z) :
  snd (fst (_normalize p1 p2)) = snd (snd (_normalize p1 p2)).
Proof.
  unfold _normalize. destruct p1 as [c1 e1], p2 as [c2 e2]. cbn [fst snd].
  destruct (e1 <? e2); reflexivity.
Qed.

(** [_normalize] treats its two operands alike. *)
Lemma _normalize_swap (p1 p2 : N * Z) :
  _normalize p2 p1 = (snd (_normalize p1 p2), fst (_normalize p1 p2)).
Proof.
  unfold _normalize. destruct p1 as [c1 e1], p2 as [c2 e2]. cbn [fst snd].
  destruct (e1 <? e2) eqn:H12, (e2 <? e1) eqn:H21; cbn [fst snd];
    try reflexivity.
  - apply Z.ltb_lt in H12, H21. lia.
  - apply Z.ltb_ge in H12, H21. assert (e2 = e1) by lia. subst e2.
    pose proof (ndigits_pos c1). pose proof (ndigits_pos c2).
    rewrite !(proj2 (Z.ltb_ge _ _)) by lia. cbn [fst snd].
    rewrite Z.sub_diag. change (Z.to_N 0) with 0%N.
    now rewrite N.pow_0_r, !N.mul_1_r.
Qed.

(** Before rounding, [x + y] and [(-y) + (-x)] are opposite. *)
Lemma add_finite_opposite (s1 : bool) (c1 : N) (e1 : Z) (s2 : bool) (c2 : N) (e2 : Z) :
  opposite (add_finite s1 c1 e1 s2 c2 e2)
           (add_finite (negb s2) c2 e2 (negb s1) c1 e1).
Proof.
  unfold add_finite. rewrite (Z.min_comm e2 e1).
  destruct (c1 =? 0)%N eqn:E1, (c2 =? 0)%N eqn:E2; cbn [andb opposite].
  - repeat split. intro H. now contradiction H.
  - repeat split.
  - repeat split.
  - rewrite (_normalize_swap (c1, e1) (c2, e2)).
    pose proof (_normalize_exp (c1, e1) (c2, e2)) as Hx.
    destruct (_normalize (c1, e1) (c2, e2)) as [[n1 x1] [n2 x2]].
    cbn [fst snd] in Hx |- *. subst x2.
    rewrite (N.eqb_sym n2 n1).
    destruct s1, s2; cbn [Bool.eqb negb];
      try (repeat split; lia);
      destruct (N.eqb_spec n1 n2) as [->|Hne];
      try (repeat split; intro H; now contradiction H);
      destruct (N.ltb_spec n1 n2), (N.ltb_spec n2 n1); try lia;
      repeat split; lia.
Qed.

(** Rounding keeps two opposite decimals opposite, and overflows for both
    or for none. *)
Lemma _fix_opposite (d d' : Decimal) :
  opposite d d' ->
  match _fix d, _fix d' with
  | Ok g, Ok g' => opposite g g'
  | Raise x, Raise x' => x = x'
  | _, _ => False
  end.
Proof.
  destruct d as [s c e| |], d' as [s' c' e'| |]; try contradiction.
  intros (-> & -> & Hs). cbn [_fix].
  destruct (_fix_finite c e) as [[c1 e1]|x] eqn:E; cbn [bind fst snd opposite];
    [|reflexivity].
  repeat split. intro H1. apply Hs. intros ->.
  destruct (_fix_finite_zero e) as [e0 E0]. rewrite E0 in E.
  injection E as <- _. now contradiction H1.
Qed.

(** The difference of two finite decimals one way is opposite to their
    difference the other way, and both raise Overflow or none does. *)
Lemma sub_finite_opposite (s1 : bool) (c1 : N) (e1 : Z) (s2 : bool) (c2 : N) (e2 : Z) :
  match sub (Finite s2 c2 e2) (Finite s1 c1 e1),
        sub (Finite s1 c1 e1) (Finite s2 c2 e2) with
  | Ok g, Ok g' => opposite g g'
  | Raise x, Raise x' => x = x'
  | _, _ => False
  end.
Proof.
  cbn [sub add _check_nans copy_negate].
  apply _fix_opposite.
  pose proof (add_finite_opposite s2 c2 e2 (negb s1) c1 e1) as H.
  now rewrite negb_involutive in H.
Qed.

Lemma _fix_fixed (d d' : Decimal) : _fix d = Ok d' -> fixed d'.
Proof.
  unfold fixed. destruct d as [s c e|s|s sig p]; cbn [_fix].
  - destruct (_fix_finite c e) as [[c1 e1]|x] eqn:E; cbn [bind fst snd];
      [|discriminate].
    intros [= <-]. cbn [_fix]. now rewrite (_fix_finite_fixed _ _ _ _ E).
  - now intros [= <-].
  - intros [= <-]. cbn [_fix]. now rewrite N.Div0.mod_mod.
Qed.

Lemma sub_fixed (a b d : Decimal) : sub a b = Ok d -> fixed d.
Proof.
  unfold sub, add.
  destruct a as [s1 c1 e1|s1|s1 [|] p1], b as [s2 c2 e2|s2|s2 [|] p2];
    cbn [_check_nans copy_negate]; try discriminate;
    try apply _fix_fixed; try (now intros [= <-]).
  destruct (Bool.eqb s1 (negb s2)); [now intros [= <-]|discriminate].
Qed.

(** The sign of a fixed finite decimal can be changed at will. *)
Lemma fixed_sign (s t : bool) (c : N) (e : Z) :
  fixed (Finite s c e) -> fixed (Finite t c e).
Proof.
  unfold fixed. cbn [_fix].
  destruct (_fix_finite c e) as [[c1 e1]|x]; cbn [bind fst snd]; [|discriminate].
  now intros [= -> ->].
Qed.

(** The negation of a fixed number: the opposite sign, and no sign for
    zero. *)
Lemma neg_fixed (s : bool) (c : N) (e : Z) :
  fixed (Finite s c e) ->
  neg (Finite s c e) = Ok (Finite (if (c =? 0)%N then false else negb s) c e).
Proof.
  intro H. cbn [neg]. destruct (c =? 0)%N; now apply (fixed_sign s).
Qed.

(** Two finite decimals with the same digits are equal when they have the
    same sign, and when they are zero. *)
Lemma eqb_same_digits (s t : bool) (c : N) (e : Z) :
  c = 0%N \/ s = t -> eqb (Finite s c e) (Finite t c e) = Ok true.
Proof.
  intro H. cbn [eqb _check_nans _cmp]. f_equal.
  destruct (c =? 0)%N eqn:E; [reflexivity|].
  apply N.eqb_neq in E. destruct H as [H|<-]; [contradiction|].
  rewrite andb_negb_l, Z.eqb_refl, Z.sub_diag, N.eqb_refl. reflexivity.
Qed.

(** The coefficient of a fixed number has at most [prec] digits. *)
Lemma fixed_bound (s : bool) (c : N) (e : Z) :
  fixed (Finite s c e) -> Z.of_N c < 10 ^ prec.
Proof.
  unfold fixed. cbn [_fix].
  destruct (_fix_finite c e) as [[c1 e1]|x] eqn:E; cbn [bind fst snd]; [|discriminate].
  intros [= -> ->]. now apply _fix_finite_range in E.
Qed.

(** Subtraction is antisymmetric up to what cannot be: [a - b] and [b - a]
    raise alike; both are a NaN or none is; and when they are not,
    [a - b == -(b - a)], with the very same digits. *)
Lemma sub_antisym (a b : Decimal) :
  match sub a b, sub b a with
  | Ok g, Ok g' =>
      is_nan g = is_nan g'
      /\ (is_nan g = false ->
          exists n, neg g' = Ok n /\ eqb g n = Ok true
                    /\ digits_of n = digits_of g)
  | Raise x, Raise x' => x = x'
  | _, _ => False
  end.
Proof.
  destruct a as [s1 c1 e1|s1|s1 [|] p1], b as [s2 c2 e2|s2|s2 [|] p2];
    try (cbn [sub add _check_nans copy_negate _fix is_nan]; first
      [ reflexivity
      | split; [reflexivity|discriminate]
      | split; [reflexivity|]; intros _; eexists; cbn [neg _fix negb];
        repeat split; destruct s1, s2; reflexivity ]).
  - pose proof (sub_finite_opposite s2 c2 e2 s1 c1 e1) as H.
    destruct (sub (Finite s1 c1 e1) (Finite s2 c2 e2)) as [g|x] eqn:E1,
             (sub (Finite s2 c2 e2) (Finite s1 c1 e1)) as [g'|x'] eqn:E2;
      try contradiction; [|assumption].
    destruct g as [s c e| |], g' as [s' c' e'| |]; try contradiction.
    destruct H as (-> & -> & Hs). split; [reflexivity|]. intros _.
    apply sub_fixed in E2.
    exists (Finite (if (c =? 0)%N then false else negb s') c e).
    split; [now apply neg_fixed|]. split; [|reflexivity].
    apply eqb_same_digits.
    destruct (N.eqb_spec c 0) as [->|Hc]; [now left|right].
    rewrite (Hs Hc). now rewrite negb_involutive.
  - cbn [sub add _check_nans copy_negate].
    destruct s1, s2; cbn [Bool.eqb negb]; try reflexivity;
      (split; [reflexivity|]; intros _; eexists; cbn [neg _fix negb];
       repeat split; reflexivity).
Qed.

(** Two operands with the same exponent are left as they are. *)
Lemma _normalize_same_exp (c1 c2 : N) (e : Z) :
  _normalize (c1, e) (c2, e) = ((c1, e), (c2, e)).
Proof.
  unfold _normalize. cbn [fst snd]. rewrite Z.ltb_irrefl. cbn [fst snd].
  pose proof (ndigits_pos c2).
  rewrite (proj2 (Z.ltb_ge _ _)) by lia. cbn [fst snd].
  rewrite Z.sub_diag. change (Z.to_N 0) with 0%N.
  now rewrite N.pow_0_r, N.mul_1_r.
Qed.

(** Before rounding, the difference of two decimals with the same exponent
    is the difference of their coefficients, with that exponent. *)
Lemma add_finite_same_exp (s1 : bool) (c1 : N) (s2 : bool) (c2 : N) (e : Z) :
  exists s,
    add_finite s1 c1 e s2 c2 e = Finite s (Z.abs_N (signed s1 c1 + signed s2 c2)) e
    /\ (signed s1 c1 + signed s2 c2 <> 0 -> s = (signed s1 c1 + signed s2 c2 <? 0)).
Proof.
  assert (Hsign : forall (s : bool) (v : Z),
            (v < 0 -> s = true) -> (0 < v -> s = false) -> v <> 0 -> s = (v <? 0)).
  { intros s v Hn Hp Hv. destruct (Z.ltb_spec v 0); [apply Hn|apply Hp]; lia. }
  unfold add_finite. rewrite Z.min_id.
  destruct (N.eqb_spec c1 0) as [->|H1], (N.eqb_spec c2 0) as [->|H2]; cbn [andb].
  - exists (s1 && s2). split; [now destruct s1, s2|]. now destruct s1, s2.
  - rewrite Z.max_l by (unfold prec; lia). rewrite Z.sub_diag.
    change (Z.to_N 0) with 0%N. rewrite N.pow_0_r, N.mul_1_r.
    exists s2. unfold signed. split.
    + f_equal. destruct s1, s2; lia.
    + apply Hsign; destruct s1, s2; intro; try reflexivity; lia.
  - rewrite Z.max_l by (unfold prec; lia). rewrite Z.sub_diag.
    change (Z.to_N 0) with 0%N. rewrite N.pow_0_r, N.mul_1_r.
    exists s1. unfold signed. split.
    + f_equal. destruct s1, s2; lia.
    + apply Hsign; destruct s1, s2; intro; try reflexivity; lia.
  - rewrite _normalize_same_exp. unfold signed.
    destruct s1, s2; cbn [Bool.eqb].
    + exists true. split; [f_equal; lia|]. apply Hsign; intro; try reflexivity; lia.
    + destruct (N.eqb_spec c1 c2) as [->|Hne].
      * exists false. split; [f_equal; lia|]. lia.
      * destruct (N.ltb_spec c1 c2).
        -- exists false. split; [f_equal; lia|].
           apply Hsign; intro; try reflexivity; lia.
        -- exists true. split; [f_equal; lia|].
           apply Hsign; intro; try reflexivity; lia.
    + destruct (N.eqb_spec c1 c2) as [->|Hne].
      * exists false. split; [f_equal; lia|]. lia.
      * destruct (N.ltb_spec c1 c2).
        -- exists true. split; [f_equal; lia|].
           apply Hsign; intro; try reflexivity; lia.
        -- exists false. split; [f_equal; lia|].
           apply Hsign; intro; try reflexivity; lia.
    + exists false. split; [f_equal; lia|]. apply Hsign; intro; try reflexivity; lia.
Qed.

(** A number of at most [prec] digits whose exponent is between [Etiny] and
    [Etop] is within the context. *)
Lemma fixed_in_range (s : bool) (c : N) (e : Z) :
  Z.of_N c < 10 ^ prec -> Etiny <= e <= Etop -> fixed (Finite s c e).
Proof.
  intros Hc He. unfold fixed. cbn [_fix].
  rewrite _fix_finite_id; [reflexivity| |].
  - intros _. unfold Etop, Emax, prec in *. lia.
  - intros _. pose proof (ndigits_le c prec ltac:(unfold prec; lia) Hc). lia.
Qed.

End decimal_facts.

(** ** The metrics between two waypoints *)

Section Metrics.

Context {X : Externals}.
Implicit Types a b p : Waypoint X.

Local Open Scope R_scope.

Lemma sqrt_nonneg_ok (x : R) : 0 <= x -> math.sqrt x = Ok (R_sqrt.sqrt x).
Proof.
  intro H. unfold math.sqrt. destruct (Rlt_dec x 0); [lra|reflexivity].
Qed.

Lemma atan2_pos (y x : R) : 0 < x -> math.atan2 y x = atan (y / x).
Proof.
  intro H. unfold math.atan2. destruct (Rlt_dec 0 x); [reflexivity|lra].
Qed.

(** What [distance_to] computes under its square roots is the haversine. *)
Lemma distance_to_unfold a b (r : Z) :
  distance_to a b r =
  (sa <- math.sqrt (haversine (latitude_rad a) (longitude_rad a)
                      (latitude_rad b) (longitude_rad b)) ;;
   sb <- math.sqrt (1 - haversine (latitude_rad a) (longitude_rad a)
                          (latitude_rad b) (longitude_rad b)) ;;
   Ok (IZR r * (2 * math.atan2 sa sb)))%result.
Proof.
  unfold distance_to, haversine, latitude_rad, longitude_rad, degrees_of, Rsqr.
  cbv zeta.
  replace (sin ((math.radians (decimal.to_float (Latitude_Decimal X (lat b)))
                 - math.radians (decimal.to_float (Latitude_Decimal X (lat a)))) / 2)
           * sin ((math.radians (decimal.to_float (Latitude_Decimal X (lat b)))
                 - math.radians (decimal.to_float (Latitude_Decimal X (lat a)))) / 2)
           + cos (math.radians (decimal.to_float (Latitude_Decimal X (lat a))))
             * cos (math.radians (decimal.to_float (Latitude_Decimal X (lat b))))
             * sin ((math.radians (decimal.to_float (Longitude_Decimal X (lon b)))
                 - math.radians (decimal.to_float (Longitude_Decimal X (lon a)))) / 2)
             * sin ((math.radians (decimal.to_float (Longitude_Decimal X (lon b)))
                 - math.radians (decimal.to_float (Longitude_Decimal X (lon a)))) / 2))
    with (sin ((math.radians (decimal.to_float (Latitude_Decimal X (lat b)))
                 - math.radians (decimal.to_float (Latitude_Decimal X (lat a)))) / 2)
           * sin ((math.radians (decimal.to_float (Latitude_Decimal X (lat b)))
                 - math.radians (decimal.to_float (Latitude_Decimal X (lat a)))) / 2)
           + cos (math.radians (decimal.to_float (Latitude_Decimal X (lat a))))
             * cos (math.radians (decimal.to_float (Latitude_Decimal X (lat b))))
             * (sin ((math.radians (decimal.to_float (Longitude_Decimal X (lon b)))
                 - math.radians (decimal.to_float (Longitude_Decimal X (lon a)))) / 2)
             * sin ((math.radians (decimal.to_float (Longitude_Decimal X (lon b)))
                 - math.radians (decimal.to_float (Longitude_Decimal X (lon a)))) / 2)))
    by ring.
  reflexivity.
Qed.

(** The haversine of a point and itself is zero. *)
Lemma haversine_self (phi lambda : R) : haversine phi lambda phi lambda = 0.
Proof.
  unfold haversine, Rsqr.
  replace ((phi - phi) / 2) with 0 by lra.
  replace ((lambda - lambda) / 2) with 0 by lra.
  rewrite sin_0. ring.
Qed.


(** A point is at distance zero from itself, for any radius and without a
    domain error. *)
Lemma distance_to_self p (r : Z) : distance_to p p r = Ok 0.
Proof.
  rewrite distance_to_unfold, haversine_self.
  rewrite (sqrt_nonneg_ok 0) by lra.
  replace (1 - 0) with 1 by ring.
  rewrite (sqrt_nonneg_ok 1) by lra.
  cbn [bind]. rewrite sqrt_0, sqrt_1, atan2_pos by lra.
  replace (0 / 1) with 0 by lra. rewrite atan_0.
  f_equal. ring.
Qed.


Lemma total_seconds_zero (t : timedelta) : total_seconds t = 0 <-> t = 0%Z.
Proof.
  unfold total_seconds. split.
  - intro H. apply eq_IZR. lra.
  - intros ->. lra.
Qed.

Lemma datetime_sub_self (t : datetime) : datetime.sub t t = Ok 0%Z.
Proof.
  unfold datetime.sub. destruct (tzinfo t); f_equal; lia.
Qed.

End Metrics.

Section MetricClaims.

Context {X : Externals}.
Implicit Types a b p : Waypoint X.


(** C7. [duration_to] is the difference of the two times when both are set,
    and the zero duration, not a failure, when either is not. *)
Theorem duration_to_spec a b :
  (forall ta tb, time a = Some ta -> time b = Some tb ->
     duration_to a b = datetime.sub tb ta)
  /\ (time a = None \/ time b = None -> duration_to a b = Ok timedelta0).
Proof.
  unfold duration_to. split.
  - intros ta tb -> ->. reflexivity.
  - intros [-> | ->]; [reflexivity|]. now destruct (time a).
Qed.

(** C4. [speed_to] is the distance divided by the duration in seconds. A
    duration of zero, which two equal times and two absent times give, makes
    the division raise ZeroDivisionError: the speed is not turned into zero. *)
Theorem speed_to_division a b (d : R) :
  distance_to a b default_radius = Ok d ->
  (forall t, duration_to a b = Ok t -> t <> 0 ->
     speed_to a b = Ok (d / total_seconds t)%R)
  /\ (duration_to a b = Ok 0 ->
      speed_to a b = Raise (ZeroDivisionError "float division by zero")
      /\ speed_to a b <> Ok 0%R)
  /\ (time a = time b -> duration_to a b = Ok 0).
Proof.
  intro Hd. unfold speed_to. rewrite Hd. cbn [bind]. repeat split.
  - intros t -> Ht. cbn [bind]. unfold math.truediv.
    destruct (Req_dec_T (total_seconds t) 0) as [E|E]; [|reflexivity].
    now apply total_seconds_zero in E.
  - rewrite H. cbn [bind]. unfold math.truediv.
    destruct (Req_dec_T (total_seconds 0) 0) as [E|E]; [reflexivity|].
    exfalso. apply E. now apply total_seconds_zero.
  - rewrite H. cbn [bind]. unfold math.truediv.
    destruct (Req_dec_T (total_seconds 0) 0) as [E|E]; [discriminate|].
    exfalso. apply E. now apply total_seconds_zero.
  - unfold duration_to. intros <-. destruct (time a); [|reflexivity].
    apply datetime_sub_self.
Qed.

(** C10, as the code has it. When an elevation is not set, the gain is
    [Decimal("0.0")] in both directions, which is its own negation. When
    both are set, the two directions raise alike (a signaling NaN, two
    infinities of one sign, a difference beyond [Emax]) or return alike; what
    they return is a NaN in both directions or in none, and when it is not,
    the gain from [a] to [b] is [==] to the negation of the gain from [b] to
    [a] and has its very digits. *)
Theorem gain_to_antisymmetric a b :
  (ele a = None \/ ele b = None ->
   gain_to a b = Ok (mkDecimal 0 (-1)) /\ gain_to b a = Ok (mkDecimal 0 (-1))
   /\ decimal.neg (mkDecimal 0 (-1)) = Ok (mkDecimal 0 (-1)))
  /\ match gain_to a b, gain_to b a with
     | Ok g, Ok g' =>
         decimal.is_nan g = decimal.is_nan g'
         /\ (decimal.is_nan g = false ->
             exists n, decimal.neg g' = Ok n /\ decimal.eqb g n = Ok true
                       /\ decimal.digits_of n = decimal.digits_of g)
     | Raise x, Raise x' => x = x'
     | _, _ => False
     end.
Proof.
  assert (Hzero : decimal.neg (mkDecimal 0 (-1)) = Ok (mkDecimal 0 (-1)))
    by reflexivity.
  unfold gain_to. split.
  - intros [H|H]; rewrite H; [destruct (ele b)|destruct (ele a)]; now repeat split.
  - destruct (ele a) as [ea|], (ele b) as [eb|];
      try (split; [reflexivity|]; intros _; exists (mkDecimal 0 (-1));
           now repeat split).
    apply decimal_facts.sub_antisym.
Qed.

End MetricClaims.

(** [Decimal(ele.text)] takes the text [NaN]. *)
Lemma parse_nan_elevation :
  _parse reference
    (Element "wpt" [("lat", "50.5"); ("lon", "1")] None
       [Element "ele" [] (Some "NaN") []]) = Ok Examples.adrift.
Proof. reflexivity. Qed.

(** C10, as the claim has it, fails: the elevation of [Examples.adrift] is a
    NaN, which [_parse] stores when it reads one, and its gain to
    [Examples.full] is a NaN, which is equal to nothing, not even to the
    negation of the gain the other way. *)
Lemma gain_to_nan_elevation :
  ~ (forall a b : Waypoint reference,
       exists g g' n,
         gain_to a b = Ok g /\ gain_to b a = Ok g' /\ decimal.neg g' = Ok n
         /\ decimal.eqb g n = Ok true).
Proof.
  intro H.
  destruct (H Examples.adrift Examples.full) as (g & g' & n & Hg & Hg' & Hn & He).
  vm_compute in Hg, Hg'. injection Hg as <-. injection Hg' as <-.
  vm_compute in Hn. injection Hn as <-.
  vm_compute in He. discriminate.
Qed.


(** Two waypoints without a time: no speed, a ZeroDivisionError. *)
Lemma speed_to_division_witness :
  speed_to Examples.A Examples.A = Raise (ZeroDivisionError "float division by zero").
Proof.
  apply (speed_to_division Examples.A Examples.A 0%R
           (distance_to_self Examples.A default_radius)).
  reflexivity.
Defined.

(** ** The GeoJSON-like projection *)

Module dict_facts.

Section Dict.

Context {K V : Type} (eqb : K -> K -> bool).
Hypothesis eqb_eq : forall x y, eqb x y = true <-> x = y.

Lemma key_eqb_refl (k : K) : eqb k k = true.
Proof. now apply eqb_eq. Qed.

Lemma get_set_same (k : K) (v : V) (d : list (K * V)) :
  dict.get eqb k (dict.set eqb k v d) = Some v.
Proof.
  induction d as [|[k' v'] d IH]; cbn.
  - now rewrite key_eqb_refl.
  - destruct (eqb k' k) eqn:E; cbn; now rewrite E.
Qed.

Lemma get_set_other (k k' : K) (v : V) (d : list (K * V)) :
  k' <> k -> dict.get eqb k (dict.set eqb k' v d) = dict.get eqb k d.
Proof.
  intro Hne. induction d as [|[k0 v0] d IH]; cbn.
  - destruct (eqb k' k) eqn:E; [|reflexivity].
    apply eqb_eq in E. contradiction.
  - destruct (eqb k0 k') eqn:E; cbn.
    + apply eqb_eq in E. subst k0.
      destruct (eqb k' k) eqn:E'; [|reflexivity].
      apply eqb_eq in E'. contradiction.
    + now rewrite IH.
Qed.

(** Setting a key that is present does not add an entry; setting a new key
    adds one. *)
Lemma length_set (k : K) (v : V) (d : list (K * V)) :
  length (dict.set eqb k v d) =
  match dict.get eqb k d with
  | Some _ => length d
  | None => S (length d)
  end.
Proof.
  induction d as [|[k' v'] d IH]; cbn; [reflexivity|].
  destruct (eqb k' k); cbn; [reflexivity|].
  rewrite IH. now destruct (dict.get eqb k d).
Qed.

End Dict.

End dict_facts.

Lemma text_eqb_eq (a b : option string) : text_eqb a b = true <-> a = b.
Proof.
  destruct a as [x|], b as [y|]; cbn; try (split; [discriminate|congruence]).
  - rewrite String.eqb_eq. split; congruence.
  - split; reflexivity.
Qed.

Lemma find_app {A : Type} (p : A -> bool) (l1 l2 : list A) :
  List.find p (l1 ++ l2) =
  match List.find p l1 with
  | Some x => Some x
  | None => List.find p l2
  end.
Proof.
  induction l1 as [|x l1 IH]; cbn; [reflexivity|]. now destruct (p x).
Qed.

Section Projection.

Context {X : Externals}.
Implicit Types (w : Waypoint X) (l : Link X) (ls : list (Link X)).

Lemma links_dict_fold ls : links_dict X ls = fold_left add_link ls [].
Proof. reflexivity. Qed.

(** After the links of [ls] are added one after the other, a key has the
    [href] of the last link of [ls] with that text, or what it had before. *)
Lemma get_fold_links (k : option string) ls (d : list (option string * string)) :
  dict.get text_eqb k (fold_left add_link ls d) =
  match last_with_text k ls with
  | Some l => Some (Link_href X l)
  | None => dict.get text_eqb k d
  end.
Proof.
  revert d. induction ls as [|l ls IH]; intro d; [reflexivity|].
  cbn [fold_left]. rewrite IH. unfold last_with_text. cbn [rev].
  rewrite find_app.
  destruct (List.find _ (rev ls)) as [l'|]; [reflexivity|].
  cbn [List.find]. unfold add_link.
  destruct (text_eqb (Link_text X l) k) eqn:E.
  - apply text_eqb_eq in E. subst k.
    apply (dict_facts.get_set_same _ text_eqb_eq).
  - apply (dict_facts.get_set_other _ text_eqb_eq).
    intro H. rewrite H in E. now rewrite (proj2 (text_eqb_eq k k)) in E.
Qed.

Lemma length_fold_links ls (d : list (option string * string)) :
  (length (fold_left add_link ls d) <= length d + length ls)%nat.
Proof.
  revert d. induction ls as [|l ls IH]; intro d; cbn [fold_left length]; [lia|].
  specialize (IH (add_link d l)).
  pose proof (dict_facts.length_set text_eqb (Link_text X l) (Link_href X l) d) as H.
  fold (add_link d l) in H.
  destruct (dict.get text_eqb (Link_text X l) d); lia.
Qed.

(** A link whose text is already a key does not add an entry. *)
Lemma length_fold_links_dup ls l ls' (d : list (option string * string)) :
  dict.get text_eqb (Link_text X l) d <> None ->
  (length (fold_left add_link (ls ++ l :: ls') d) < length d + length (ls ++ l :: ls'))%nat.
Proof.
  revert d. induction ls as [|l0 ls IH]; intros d Hd.
  - cbn [app fold_left length].
    pose proof (length_fold_links ls' (add_link d l)) as H.
    pose proof (dict_facts.length_set text_eqb (Link_text X l) (Link_href X l) d) as H'.
    fold (add_link d l) in H'.
    destruct (dict.get text_eqb (Link_text X l) d); [lia|contradiction].
  - cbn [app fold_left length].
    assert (Hd' : dict.get text_eqb (Link_text X l) (add_link d l0) <> None).
    { unfold add_link.
      destruct (text_eqb (Link_text X l0) (Link_text X l)) eqn:E.
      - apply text_eqb_eq in E. rewrite <- E.
        now rewrite (dict_facts.get_set_same _ text_eqb_eq).
      - rewrite (dict_facts.get_set_other _ text_eqb_eq); [assumption|].
        intro H. rewrite H in E.
        now rewrite (proj2 (text_eqb_eq _ _) eq_refl) in E. }
    specialize (IH _ Hd').
    pose proof (dict_facts.length_set text_eqb (Link_text X l0) (Link_href X l0) d) as H.
    fold (add_link d l0) in H.
    destruct (dict.get text_eqb (Link_text X l0) d); lia.
Qed.

Lemma last_with_text_last (k : option string) ls l ls' :
  Link_text X l = k ->
  (forall x, In x ls' -> Link_text X x <> k) ->
  last_with_text k (ls ++ l :: ls') = Some l.
Proof.
  intros Hl Hpost. unfold last_with_text.
  rewrite rev_app_distr. cbn [rev]. rewrite <- app_assoc, find_app.
  assert (Hnone : List.find (fun l0 => text_eqb (Link_text X l0) k) (rev ls') = None).
  { destruct (List.find _ (rev ls')) as [x|] eqn:E; [|reflexivity].
    apply find_some in E. destruct E as [Hin Hk].
    apply in_rev in Hin. apply text_eqb_eq in Hk. now apply Hpost in Hin. }
  rewrite Hnone. cbn. now rewrite (proj2 (text_eqb_eq _ _) Hl).
Qed.


(** C9. The [links] of the projection are a dict keyed by link text: when
    two links of the waypoint have the same text, the key has the [href] of
    the last link with that text, and the dict has fewer entries than the
    waypoint has links. *)
Theorem links_projection_last_wins w (pre mid post : list (Link X)) (l l' : Link X) :
  links w = (pre ++ l :: mid ++ l' :: post)%list ->
  Link_text X l = Link_text X l' ->
  (forall x, In x post -> Link_text X x <> Link_text X l') ->
  dict.get text_eqb (Link_text X l')
    (prop_links (properties (__geo_interface__ w))) = Some (Link_href X l')
  /\ (length (prop_links (properties (__geo_interface__ w))) < length (links w))%nat.
Proof.
  intros Hl Heq Hpost.
  unfold __geo_interface__. cbn [properties prop_links].
  rewrite links_dict_fold, Hl. split.
  - rewrite get_fold_links.
    replace (pre ++ l :: mid ++ l' :: post)%list
      with ((pre ++ l :: mid) ++ l' :: post)%list
      by (rewrite <- app_assoc; reflexivity).
    now rewrite (last_with_text_last _ _ l' post eq_refl Hpost).
  - replace (pre ++ l :: mid ++ l' :: post)%list
      with ((pre ++ l :: mid) ++ l' :: post)%list
      by (rewrite <- app_assoc; reflexivity).
    rewrite fold_left_app.
    set (d := fold_left add_link (pre ++ l :: mid) []).
    assert (Hd : dict.get text_eqb (Link_text X l') d <> None).
    { subst d. rewrite get_fold_links, <- Heq.
      destruct (last_with_text (Link_text X l) (pre ++ l :: mid)) as [x|] eqn:E;
        [discriminate|].
      unfold last_with_text in E. exfalso.
      assert (Hin : In l (rev (pre ++ l :: mid)))
        by (apply -> in_rev; apply in_or_app; right; now left).
      pose proof (find_none _ _ E l Hin) as Hf. cbn beta in Hf.
      now rewrite (proj2 (text_eqb_eq _ _) eq_refl) in Hf. }
    pose proof (length_fold_links_dup [] l' post d Hd) as H1.
    pose proof (length_fold_links (pre ++ l :: mid) []) as H2. fold d in H2.
    cbn [app] in H1. rewrite length_app. cbn [length] in *. lia.
Qed.

End Projection.

(** The three links of [Examples.full]: the first and the last have the text
    ["map"], and ["map"] has the address of the last. *)
Lemma links_projection_last_wins_witness :
  dict.get text_eqb (Some "map")
    (prop_links (properties (__geo_interface__ Examples.full))) =
  Some "http://c.example"
  /\ (length (prop_links (properties (__geo_interface__ Examples.full))) < 3)%nat.
Proof.
  apply (links_projection_last_wins Examples.full []
           [Reference.mklink "http://b.example" None] []
           (Reference.mklink "http://a.example" (Some "map"))
           (Reference.mklink "http://c.example" (Some "map")));
    [reflexivity | reflexivity | intros x []].
Defined.

(** ** Texts: digits and replacement *)

Module Str_facts.
Import Str.

Lemma append_assoc (s1 s2 s3 : string) : (s1 ++ s2) ++ s3 = s1 ++ (s2 ++ s3).
Proof. induction s1 as [|a s1 IH]; cbn; [reflexivity|now rewrite IH]. Qed.

Lemma length_append (s1 s2 : string) :
  String.length (s1 ++ s2) = (String.length s1 + String.length s2)%nat.
Proof. induction s1 as [|a s1 IH]; cbn; [reflexivity|now rewrite IH]. Qed.

Lemma occurs_append (c : ascii) (s1 s2 : string) :
  occurs c (s1 ++ s2) = occurs c s1 || occurs c s2.
Proof.
  induction s1 as [|a s1 IH]; cbn; [reflexivity|].
  now rewrite IH, orb_assoc.
Qed.

Lemma all_digits_append (s1 s2 : string) :
  all_digits (s1 ++ s2) = all_digits s1 && all_digits s2.
Proof.
  induction s1 as [|a s1 IH]; cbn; [reflexivity|].
  now rewrite IH, andb_assoc.
Qed.

(** A character that is not a digit does not occur among digits. *)
Lemma all_digits_absent (c : ascii) (s : string) :
  is_digit c = false -> all_digits s = true -> occurs c s = false.
Proof.
  intros Hc. induction s as [|a s IH]; cbn; [reflexivity|].
  intro H. apply andb_prop in H. destruct H as [Ha Hs].
  rewrite (IH Hs), orb_false_r.
  destruct (Ascii.eqb a c) eqn:E; [|reflexivity].
  apply Ascii.eqb_eq in E. subst a. congruence.
Qed.

Lemma all_digits_uint (d : Decimal.uint) :
  all_digits (NilEmpty.string_of_uint d) = true.
Proof. induction d; cbn; [reflexivity|assumption..]. Qed.

Lemma all_digits_digits (n : N) : all_digits (digits n) = true.
Proof.
  unfold digits, NilZero.string_of_uint.
  destruct (N.to_uint n) eqn:E; try reflexivity; rewrite <- E;
    apply all_digits_uint.
Qed.

Lemma all_digits_zeros (k : nat) : all_digits (zeros k) = true.
Proof. induction k; [reflexivity|exact IHk]. Qed.

Lemma all_digits_zfill (width : nat) (n : N) : all_digits (zfill width n) = true.
Proof.
  unfold zfill. now rewrite all_digits_append, all_digits_zeros, all_digits_digits.
Qed.

Lemma to_uint_nonnil (n : N) : N.to_uint n <> Decimal.Nil.
Proof.
  intro H. pose proof (DecimalN.Unsigned.of_to n) as E. rewrite H in E.
  cbn in E. subst n. discriminate.
Qed.

(** The digits of a number write that number. *)
Lemma numeral_digits (n : N) : numeral (digits n) = Some n.
Proof.
  unfold numeral, digits.
  rewrite NilZero.usu by apply to_uint_nonnil.
  cbn. now rewrite DecimalN.Unsigned.of_to.
Qed.

Lemma digits_nonempty (n : N) : digits n <> "".
Proof.
  intro H. pose proof (numeral_digits n) as E. rewrite H in E. discriminate.
Qed.

(** A number that two digits [00] write is zero. *)
Lemma zfill2_zero (n : N) : zfill 2 n = "00" -> n = 0%N.
Proof.
  unfold zfill. pose proof (numeral_digits n) as E.
  pose proof (digits_nonempty n) as Hne.
  destruct (digits n) as [|a [|b [|c r]]]; cbn; try contradiction.
  - intros [= ->]. cbn in E. congruence.
  - intros [= -> ->]. cbn in E. congruence.
  - discriminate.
Qed.

Lemma length_zfill2 (n : N) : (2 <= String.length (zfill 2 n))%nat.
Proof.
  unfold zfill. pose proof (digits_nonempty n).
  destruct (digits n) as [|a [|b r]]; cbn; [contradiction|lia|lia].
Qed.

Section Replace.

Variables (c : ascii) (old' new : string).

Lemma prefix_other (a : ascii) (s : string) :
  Ascii.eqb a c = false -> String.prefix (String c old') (String a s) = false.
Proof.
  intro H. cbn. destruct (ascii_dec c a) as [->|]; [|reflexivity].
  now rewrite Ascii.eqb_refl in H.
Qed.

(** A text in which the first character of [old] does not occur is left as
    it is. *)
Lemma replace_absent (s : string) :
  occurs c s = false -> replace_from (String c old') new 0 s = s.
Proof.
  induction s as [|a s IH]; [reflexivity|].
  cbn [occurs]. intro H. apply orb_false_elim in H. destruct H as [Ha Hs].
  cbn [replace_from]. rewrite (prefix_other a s Ha). now rewrite (IH Hs).
Qed.

(** Replacement goes through a beginning in which the first character of
    [old] does not occur. *)
Lemma replace_append_absent (p q : string) :
  occurs c p = false ->
  replace_from (String c old') new 0 (p ++ q) =
  p ++ replace_from (String c old') new 0 q.
Proof.
  induction p as [|a p IH]; [reflexivity|].
  cbn [occurs]. intro H. apply orb_false_elim in H. destruct H as [Ha Hp].
  cbn [String.append replace_from]. rewrite (prefix_other a (p ++ q) Ha).
  now rewrite (IH Hp).
Qed.

End Replace.

Lemma replace_digits_append (width : nat) (n : N) (q : string) :
  replace "+00:00" "Z" (zfill width n ++ q) =
  zfill width n ++ replace "+00:00" "Z" q.
Proof.
  apply replace_append_absent.
  apply all_digits_absent; [reflexivity|apply all_digits_zfill].
Qed.

Lemma replace_sep_append (a : ascii) (q : string) :
  Ascii.eqb a "+" = false ->
  replace "+00:00" "Z" (String a q) = String a (replace "+00:00" "Z" q).
Proof.
  intro H. apply (replace_append_absent "+" "00:00" "Z" (String a "") q).
  cbn. now rewrite H.
Qed.

End Str_facts.

(** ** Parsing is all or nothing *)

Section ParseFailure.

Context {X : Externals}.

Lemma failure_child {T : Type} (conv : option string -> result T)
    (el : element) (name_ : string) :
  child_failure conv el name_ = failure (child conv el name_).
Proof.
  unfold child_failure, child. destruct (find el name_) as [c|]; [|reflexivity].
  now destruct (conv (text c)).
Qed.

Lemma failure_for_each {A B : Type} (f : A -> result B) (xs : list A) :
  first_failure (map (fun x => failure (f x)) xs) = failure (for_each f xs).
Proof.
  induction xs as [|x xs IH]; [reflexivity|].
  cbn. destruct (f x) as [y|e]; cbn; [|reflexivity].
  rewrite IH. now destruct (for_each f xs).
Qed.

Lemma first_failure_app (l1 l2 : list (option exn)) :
  first_failure (l1 ++ l2) =
  match first_failure l1 with
  | Some e => Some e
  | None => first_failure l2
  end.
Proof.
  induction l1 as [|[e|] l1 IH]; cbn; [reflexivity|reflexivity|exact IH].
Qed.

(** One step of [_parse]: a conversion that raises ends the parse with its
    exception, one that returns lets the parse go on. *)
Lemma step {A B : Type} (m : result A) (k : A -> result B)
    (rest : list (option exn)) :
  (forall a, m = Ok a ->
     match first_failure rest with
     | Some e => k a = Raise e
     | None => exists b, k a = Ok b
     end) ->
  match first_failure (failure m :: rest) with
  | Some e => bind m k = Raise e
  | None => exists b, bind m k = Ok b
  end.
Proof.
  intro H. destruct m as [a|e]; cbn; [|reflexivity]. now apply H.
Qed.

(** C2. Parsing is all or nothing: when a conversion fails, [_parse] raises
    the exception of the first one that does, in its fixed order, and returns
    no waypoint; when none fails it returns a waypoint. *)
Theorem parse_all_or_nothing (el : element) :
  match first_failure (conversions X el) with
  | Some e => _parse X el = Raise e
  | None => exists w, _parse X el = Ok w
  end.
Proof.
  unfold conversions, _parse.
  rewrite !failure_child.
  cbn [app].
  do 6 (apply step; intros ? _).
  rewrite first_failure_app, failure_for_each.
  destruct (for_each (Link_new X) (iterfind el "link")) as [ls|e]; cbn [failure bind];
    [|reflexivity].
  do 7 (apply step; intros ? _).
  cbn. eexists. reflexivity.
Qed.

End ParseFailure.

(** An element whose elevation and fix do not convert: the parse raises what
    the elevation, the first of the two, raises. *)
Lemma parse_all_or_nothing_witness :
  _parse reference
    (Element "wpt" [("lat", "50.5"); ("lon", "1")] None
       [Element "ele" [] (Some "high") []; Element "fix" [] (Some "4d") []]) =
  Raise (InvalidOperation "[<class 'decimal.ConversionSyntax'>]").
Proof.
  exact (parse_all_or_nothing (X := reference)
           (Element "wpt" [("lat", "50.5"); ("lon", "1")] None
              [Element "ele" [] (Some "high") []; Element "fix" [] (Some "4d") []])).
Defined.

(** ** The element that [_build] makes *)

Section Build.

Context {X : Externals}.
Implicit Types (w : Waypoint X) (e : element).

Lemma children_set e (k v : string) : children (set e k v) = children e.
Proof. now destruct e. Qed.

Lemma children_emit {T : Type} (str : T -> string) (name_ : string)
    (o : option T) e :
  children (emit str name_ o e) = (children e ++ emitted str name_ o)%list.
Proof.
  destruct o as [v|]; cbn; [now destruct e|now rewrite app_nil_r].
Qed.

Lemma attrib_emit {T : Type} (str : T -> string) (name_ : string)
    (o : option T) e :
  attrib (emit str name_ o e) = attrib e.
Proof. destruct o; [now destruct e|reflexivity]. Qed.

Lemma children_append_links (ls : list (Link X)) e :
  children (fold_left (fun wp link => append wp (Link_build X link)) ls e) =
  (children e ++ map (Link_build X) ls)%list.
Proof.
  revert e. induction ls as [|l ls IH]; intro e; cbn [fold_left map].
  - now rewrite app_nil_r.
  - rewrite IH. destruct e. cbn. now rewrite <- app_assoc.
Qed.

Lemma attrib_append_links (ls : list (Link X)) e :
  attrib (fold_left (fun wp link => append wp (Link_build X link)) ls e) =
  attrib e.
Proof.
  revert e. induction ls as [|l ls IH]; intro e; cbn [fold_left]; [reflexivity|].
  rewrite IH. now destruct e.
Qed.

Lemma children_build w (tag_ : string) :
  children (_build w tag_) = built_children w.
Proof.
  unfold _build, built_children.
  repeat first [rewrite children_emit | rewrite children_append_links
               | rewrite children_set].
  cbn [Element_build children app].
  repeat rewrite <- app_assoc. reflexivity.
Qed.

Lemma attrib_build w (tag_ : string) :
  attrib (_build w tag_) =
  [("lat", Latitude_str X (lat w)); ("lon", Longitude_str X (lon w))].
Proof.
  unfold _build.
  repeat first [rewrite attrib_emit | rewrite attrib_append_links].
  reflexivity.
Qed.

Lemma filter_emitted {T : Type} (str : T -> string) (name_ n : string)
    (o : option T) :
  filter (fun c => String.eqb (tag c) n) (emitted str name_ o) =
  if String.eqb name_ n then emitted str name_ o else [].
Proof.
  destruct o as [v|]; cbn [emitted filter tag];
    now destruct (String.eqb name_ n).
Qed.

Lemma filter_links (ls : list (Link X)) (n : string) :
  Forall (fun l => tag (Link_build X l) = "link") ls ->
  filter (fun c => String.eqb (tag c) n) (map (Link_build X) ls) =
  if String.eqb "link" n then map (Link_build X) ls else [].
Proof.
  induction 1 as [|l ls Hl _ IH]; cbn [filter map];
    [now destruct (String.eqb "link" n)|].
  rewrite Hl, IH. now destruct (String.eqb "link" n).
Qed.

(** The children of the element with a given tag. *)
Lemma iterfind_build w (tag_ n : string) :
  links_build_link w ->
  iterfind (_build w tag_) n =
  filter (fun c => String.eqb (tag c) n) (built_children w).
Proof. intros _. unfold iterfind. now rewrite children_build. Qed.

(** C6. An optional attribute that is not set has no child in the element
    that [_build] makes: no child at all has its tag. *)
Theorem absent_field_no_child w (tag_ : string) (f : field) :
  links_build_link w ->
  is_set w f = false ->
  iterfind (_build w tag_) (field_tag f) = [].
Proof.
  intros Hlinks Hset. rewrite iterfind_build by assumption.
  unfold built_children.
  rewrite !filter_app, !filter_emitted, (filter_links _ _ Hlinks).
  destruct f; cbn in Hset |- *;
    match type of Hset with
    | is_some ?o = false => destruct o; [discriminate|reflexivity]
    end.
Qed.

End Build.

(** [Examples.flat] has no elevation: the element has no [ele] child. *)
Lemma absent_field_no_child_witness :
  iterfind (_build Examples.flat "wpt") "ele" = [].
Proof.
  apply (absent_field_no_child Examples.flat "wpt" f_ele).
  - repeat constructor.
  - reflexivity.
Defined.

(** ** The text of the time child *)

Section TimeText.

Import Str Str_facts.

Lemma zfill2_minutes (m : N) :
  (m < 60)%N -> String.prefix "00" (zfill 2 m) = true -> m = 0%N.
Proof.
  intros Hm Hp.
  assert (Hall : forallb (fun k => implb (String.prefix "00" (zfill 2 k)) (k =? 0)%N)
                   (map N.of_nat (seq 0 60)) = true) by (vm_compute; reflexivity).
  rewrite forallb_forall in Hall.
  specialize (Hall m). rewrite Hp in Hall. cbn [implb] in Hall.
  apply N.eqb_eq, Hall.
  rewrite <- (N2Nat.id m). apply in_map, in_seq. lia.
Qed.

Lemma prefix_append_long (p s q : string) :
  (String.length p <= String.length s)%nat ->
  String.prefix p (s ++ q) = String.prefix p s.
Proof.
  revert s. induction p as [|c p IH]; intros s H; [destruct s, q; reflexivity|].
  destruct s as [|a s]; cbn in H; [lia|].
  cbn [String.append String.prefix].
  destruct (ascii_dec c a); [apply IH; lia|reflexivity].
Qed.

(** Only hours and minutes that are zero are written [00:00]. *)
Lemma prefix_zero_offset (h m : N) (q : string) :
  (m < 60)%N ->
  String.prefix "00:00" (zfill 2 h ++ ":" ++ zfill 2 m ++ q) = true ->
  h = 0%N /\ m = 0%N.
Proof.
  intros Hm.
  pose proof (length_zfill2 h) as Hlen.
  pose proof (all_digits_zfill 2 h) as Hdig.
  pose proof (zfill2_zero h) as Hzero.
  destruct (zfill 2 h) as [|a [|b r]]; cbn in Hlen; try lia.
  cbn [String.append String.prefix].
  destruct (ascii_dec "0" a) as [<-|]; [|discriminate].
  destruct (ascii_dec "0" b) as [<-|]; [|discriminate].
  destruct r as [|c r].
  - cbn [String.append String.prefix].
    destruct (ascii_dec ":" ":") as [_|n]; [|now contradiction n].
    rewrite (prefix_append_long "00" (zfill 2 m) q) by apply length_zfill2.
    intro Hp. split; [now apply Hzero|now apply zfill2_minutes].
  - cbn [String.append String.prefix].
    destruct (ascii_dec ":" c) as [<-|]; [|discriminate].
    cbn in Hdig. discriminate.
Qed.

Lemma occurs_plus_seconds (ss : N) : occurs "+" (offset_seconds ss) = false.
Proof.
  unfold offset_seconds. destruct (ss =? 0)%N; [reflexivity|].
  destruct (ss mod 1000000 =? 0)%N;
    rewrite !occurs_append,
      !(all_digits_absent "+" _ eq_refl (all_digits_zfill _ _)); reflexivity.
Qed.

Lemma occurs_plus_offset (h m ss : N) :
  occurs "+" (zfill 2 h ++ ":" ++ zfill 2 m ++ offset_seconds ss) = false.
Proof.
  rewrite !occurs_append, occurs_plus_seconds.
  rewrite !(all_digits_absent "+" _ eq_refl (all_digits_zfill _ _)).
  reflexivity.
Qed.

(** The hours and the minutes of an offset are both zero exactly when the
    offset is less than a minute. *)
Lemma offset_below_minute (a : N) :
  ((a / 3600000000 = 0 /\ a mod 3600000000 / 60000000 = 0) <-> a < 60000000)%N.
Proof.
  pose proof (N.div_mod a 3600000000 ltac:(discriminate)) as D1.
  pose proof (N.mod_lt a 3600000000 ltac:(discriminate)) as L1.
  pose proof (N.div_mod (a mod 3600000000) 60000000 ltac:(discriminate)) as D2.
  pose proof (N.mod_lt (a mod 3600000000) 60000000 ltac:(discriminate)) as L2.
  split.
  - intros [H1 H2]. rewrite H1 in D1. rewrite H2 in D2. lia.
  - intro H. rewrite (N.mod_small a 3600000000) by lia.
    split; apply N.div_small; lia.
Qed.

Lemma replace_zero_prefix (q : string) :
  replace "+00:00" "Z" (String "+" ("00" ++ ":" ++ "00" ++ q)) =
  "Z" ++ replace "+00:00" "Z" q.
Proof.
  destruct q as [|c q]; [vm_compute; reflexivity|].
  unfold replace. cbn [String.append replace_from].
  change (String.prefix "+00:00"
            (String "+" (String "0" (String "0" (String ":"
               (String "0" (String "0" (String c q)))))))) with true.
  cbv iota. cbn [String.length Nat.sub replace_from String.append].
  reflexivity.
Qed.

(** [.replace("+00:00", "Z")] on an offset: [+00:00] at the head of the
    offset becomes [Z], whether seconds follow it or not; every other
    offset, and no offset, stays as it is. *)
Lemma replace_offset (off : option timedelta) :
  replace "+00:00" "Z" (_format_offset off) = designator off.
Proof.
  destruct off as [off|]; [|reflexivity].
  unfold _format_offset, designator.
  set (a := Z.to_N (Z.abs off)).
  set (h := (a / 3600000000)%N).
  set (m := (a mod 3600000000 / 60000000)%N).
  change (replace "+00:00" "Z"
            ((if off <? 0 then "-" else "+") ++ zfill 2 h ++ ":" ++ zfill 2 m ++
             offset_seconds ((a mod 3600000000) mod 60000000)) =
          if (0 <=? off) && (off <? 60000000)
          then "Z" ++ offset_seconds ((a mod 3600000000) mod 60000000)
          else (if off <? 0 then "-" else "+") ++ zfill 2 h ++ ":" ++ zfill 2 m ++
               offset_seconds ((a mod 3600000000) mod 60000000)).
  set (sp := offset_seconds ((a mod 3600000000) mod 60000000)).
  assert (Hsp : occurs "+" sp = false) by apply occurs_plus_seconds.
  destruct (off <? 0) eqn:Hneg.
  - apply Z.ltb_lt in Hneg.
    rewrite (proj2 (Z.leb_gt 0 off)) by assumption. cbn [andb].
    change ("-" ++ zfill 2 h ++ ":" ++ zfill 2 m ++ sp)
      with (String "-" (zfill 2 h ++ ":" ++ zfill 2 m ++ sp)).
    rewrite replace_sep_append by reflexivity. f_equal.
    apply replace_absent, occurs_plus_offset.
  - apply Z.ltb_ge in Hneg.
    rewrite (proj2 (Z.leb_le 0 off)) by assumption. cbn [andb].
    assert (Ha : Z.of_N a = off) by (subst a; lia).
    change ("+" ++ zfill 2 h ++ ":" ++ zfill 2 m ++ sp)
      with (String "+" (zfill 2 h ++ ":" ++ zfill 2 m ++ sp)).
    destruct (off <? 60000000) eqn:Hlt.
    + apply Z.ltb_lt in Hlt.
      assert (Hsmall : (a < 60000000)%N) by lia.
      apply offset_below_minute in Hsmall. destruct Hsmall as [Hh Hm].
      fold h in Hh. fold m in Hm. rewrite Hh, Hm.
      change (zfill 2 0) with "00".
      rewrite replace_zero_prefix. f_equal. now apply replace_absent.
    + apply Z.ltb_ge in Hlt.
      unfold replace. cbn [replace_from].
      assert (Hpre : String.prefix "+00:00"
                       (String "+" (zfill 2 h ++ ":" ++ zfill 2 m ++ sp)) = false).
      { cbn [String.prefix].
        destruct (ascii_dec "+" "+") as [_|n]; [|now contradiction n].
        destruct (String.prefix "00:00" (zfill 2 h ++ ":" ++ zfill 2 m ++ sp)) eqn:E;
          [|reflexivity].
        assert (Hm : (m < 60)%N).
        { subst m. apply N.Div0.div_lt_upper_bound.
          apply (N.mod_lt a 3600000000). discriminate. }
        pose proof (proj1 (offset_below_minute a) (prefix_zero_offset h m sp Hm E)).
        lia. }
      rewrite Hpre. f_equal. apply replace_absent, occurs_plus_offset.
Qed.

(** The text of the time child is ISO 8601, to the second or to the
    millisecond, with [Z] for the offset zero. *)
Lemma time_text_iso8601 (t : datetime) : time_text t = iso8601 t.
Proof.
  unfold time_text, iso8601, isoformat, _format_time.
  destruct (microsecond t =? 0)%N; cbv iota;
    repeat rewrite append_assoc;
    cbn [String.append];
    repeat first [ rewrite replace_digits_append
                 | rewrite replace_sep_append by reflexivity ];
    now rewrite replace_offset.
Qed.

End TimeText.

(** ** Parsing what was built *)

(** Decides the comparisons of tags that are written out. *)
Ltac decide_tags :=
  repeat match goal with
    | |- context [String.eqb ?a ?b] =>
        let r := eval vm_compute in (String.eqb a b) in
        change (String.eqb a b) with r
    end;
  cbv iota.

Section RoundTrip.

Context {X : Externals}.
Implicit Types (w : Waypoint X) (e : element).

Lemma find_emitted {T : Type} (str : T -> string) (name_ n : string)
    (o : option T) :
  List.find (fun c => String.eqb (tag c) n) (emitted str name_ o) =
  if String.eqb name_ n
  then option_map (fun v => Element name_ [] (Some (str v)) []) o
  else None.
Proof.
  destruct o as [v|]; cbn [emitted List.find tag option_map];
    now destruct (String.eqb name_ n).
Qed.

Lemma find_links (ls : list (Link X)) (n : string) :
  Forall (fun l => tag (Link_build X l) = "link") ls ->
  String.eqb "link" n = false ->
  List.find (fun c => String.eqb (tag c) n) (map (Link_build X) ls) = None.
Proof.
  intros H Hn. induction H as [|l ls Hl _ IH]; cbn [map List.find]; [reflexivity|].
  now rewrite Hl, Hn.
Qed.

Lemma find_build w (tag_ n : string) :
  find (_build w tag_) n =
  List.find (fun c => String.eqb (tag c) n) (built_children w).
Proof. unfold find. now rewrite children_build. Qed.

(** Looks up the child with a written-out tag in what [_build] made. *)
Ltac find_child Hlinks :=
  rewrite find_build; unfold built_children;
  rewrite !find_app, !find_emitted, ?(find_links _ _ Hlinks) by reflexivity;
  decide_tags.

(** A scalar attribute that converts back from its text is parsed back. *)
Lemma child_some {T : Type} (conv : option string -> result T)
    (str : T -> string) (name_ : string) (o : option T) e :
  find e name_ = option_map (fun v => Element name_ [] (Some (str v)) []) o ->
  opt_roundtrips conv str o ->
  child conv e name_ = Ok o.
Proof.
  intros Hf Hr. unfold child. rewrite Hf.
  destruct o as [v|]; cbn [option_map text]; [|reflexivity].
  cbn in Hr. unfold roundtrips in Hr. now rewrite Hr.
Qed.

Lemma child_text_some (name_ : string) (o : option string) e :
  find e name_ = option_map (fun v => Element name_ [] (Some v) []) o ->
  child_text e name_ = o.
Proof.
  intros Hf. unfold child_text. rewrite Hf. now destruct o.
Qed.

Lemma for_each_links (ls : list (Link X)) :
  Forall (fun l => tag (Link_build X l) = "link"
                   /\ Link_new X (Link_build X l) = Ok l) ls ->
  for_each (Link_new X) (map (Link_build X) ls) = Ok ls.
Proof.
  induction 1 as [|l ls [_ Hl] _ IH]; cbn [map for_each]; [reflexivity|].
  rewrite Hl. cbn [bind]. rewrite IH. reflexivity.
Qed.

Lemma links_tagged w : values_roundtrip w -> links_build_link w.
Proof.
  intros (_ & _ & _ & _ & _ & _ & H & _). unfold links_build_link.
  eapply Forall_impl; [|exact H]. now intros l [Hl _].
Qed.

(** The [link] children of what [_build] made are the links, in order. *)
Lemma iterfind_link w (tag_ : string) :
  links_build_link w ->
  iterfind (_build w tag_) "link" = map (Link_build X) (links w).
Proof.
  intro Hlinks. rewrite iterfind_build by assumption. unfold built_children.
  rewrite !filter_app, !filter_emitted, (filter_links _ _ Hlinks).
  decide_tags. cbn [app]. now rewrite app_nil_r.
Qed.

(** The [time] child of what [_build] makes, for every time: the date and
    the time of day in the layout of ISO 8601, to the millisecond when the
    microseconds are not zero and to the second otherwise, then the offset.
    The offset zero is written [Z], a time without an offset has no
    designator, and an offset of whole minutes that is not zero is written
    in numbers, with its sign, hours and minutes. An offset that is not of
    whole minutes has its seconds written after that, which ISO 8601 does not
    have, and one from zero to less than a minute begins with [Z]. *)
Theorem time_child_iso8601 w (tag_ : string) (t : datetime) :
  time w = Some t ->
  find (_build w tag_) "time" = Some (Element "time" [] (Some (iso8601 t)) []).
Proof.
  intro Ht. rewrite find_build. unfold built_children.
  rewrite !find_app, !find_emitted. decide_tags.
  rewrite Ht. cbn [option_map]. now rewrite time_text_iso8601.
Qed.

(** Parsing what [_build] made gives the waypoint back, every attribute
    equal and the time at the precision it was written with, whenever each
    value of the waypoint converts back from the text that is written for
    it. *)
Lemma parse_build_values w (tag_ : string) :
  values_roundtrip w ->
  _parse X (_build w tag_) = Ok (as_written w).
Proof.
  intro H. pose proof (links_tagged w H) as Hlinks.
  destruct H as (Hlat & Hlon & Hele & Htime & Hmagvar & Hgeoid & Hls & Hfix
                 & Hsat & Hhdop & Hvdop & Hpdop & Hage & Hdgps).
  unfold _parse.
  unfold get. rewrite attrib_build. cbn [lookup].
  change (String.eqb "lat" "lat") with true.
  change (String.eqb "lat" "lon") with false.
  change (String.eqb "lon" "lon") with true. cbv iota.
  rewrite Hlat, Hlon. cbn [bind].
  rewrite (child_some _ (Decimal_str X) "ele" (ele w));
    [|find_child Hlinks; now destruct (ele w)|assumption].
  cbn [bind].
  assert (Et : child (isoparse X) (_build w tag_) "time" =
               Ok (option_map at_written_precision (time w))).
  { unfold child. find_child Hlinks.
    destruct (time w) as [t|]; cbn [option_map text]; [|reflexivity].
    rewrite time_text_iso8601, Htime. reflexivity. }
  rewrite Et. cbn [bind].
  rewrite (child_some _ (Degrees_str X) "magvar" (magvar w));
    [|find_child Hlinks; now destruct (magvar w)|assumption].
  rewrite (child_some _ (Decimal_str X) "geoidheight" (geoidheight w));
    [|find_child Hlinks; now destruct (geoidheight w)|assumption].
  cbn [bind].
  rewrite (child_text_some "name" (name w));
    [|find_child Hlinks; now destruct (name w)].
  rewrite (child_text_some "cmt" (cmt w));
    [|find_child Hlinks; now destruct (cmt w)].
  rewrite (child_text_some "desc" (desc w));
    [|find_child Hlinks; now destruct (desc w)].
  rewrite (child_text_some "src" (src w));
    [|find_child Hlinks; now destruct (src w)].
  rewrite (iterfind_link w tag_ Hlinks), (for_each_links _ Hls).
  cbn [bind].
  rewrite (child_text_some "sym" (sym w));
    [|find_child Hlinks; now destruct (sym w)].
  rewrite (child_text_some "type" (type w));
    [|find_child Hlinks; now destruct (type w)].
  rewrite (child_some _ (Fix_str X) "fix" (fix_ w));
    [|find_child Hlinks; now destruct (fix_ w)|assumption].
  rewrite (child_some _ (int_str X) "sat" (sat w));
    [|find_child Hlinks; now destruct (sat w)|assumption].
  rewrite (child_some _ (Decimal_str X) "hdop" (hdop w));
    [|find_child Hlinks; now destruct (hdop w)|assumption].
  rewrite (child_some _ (Decimal_str X) "vdop" (vdop w));
    [|find_child Hlinks; now destruct (vdop w)|assumption].
  rewrite (child_some _ (Decimal_str X) "pdop" (pdop w));
    [|find_child Hlinks; now destruct (pdop w)|assumption].
  rewrite (child_some _ (Decimal_str X) "ageofdgpsdata" (ageofdgpsdata w));
    [|find_child Hlinks; now destruct (ageofdgpsdata w)|assumption].
  rewrite (child_some _ (DGPSStation_str X) "dgpsid" (dgpsid w));
    [|find_child Hlinks; now destruct (dgpsid w)|assumption].
  reflexivity.
Qed.

End RoundTrip.

(** [Examples.full], whose time is 678901 microseconds past a second and
    two hours east of UTC: the text has milliseconds and the offset in
    numbers. *)
Lemma time_child_iso8601_witness :
  find (_build Examples.full "wpt") "time" =
  Some (Element "time" [] (Some "2020-01-02T12:30:05.678+02:00") []).
Proof.
  exact (time_child_iso8601 Examples.full "wpt" Examples.half_past eq_refl).
Defined.

(** C3, at a failing input. The time of [Examples.full] is two hours east of
    UTC, and the [time] child that [_build] makes has the numeric offset
    [+02:00] where the claim has [Z]: the text is not brought to UTC, only
    the text [+00:00] is replaced. That replacement also hits an offset of
    thirty seconds, which is written [Z:30]. *)
Theorem time_child_numeric_offset :
  find (_build Examples.full "wpt") "time" =
    Some (Element "time" [] (Some "2020-01-02T12:30:05.678+02:00") [])
  /\ time_text (mkdatetime 2020 1 2 12 0 0 0 (Some (datetime.offset 0 0 30))) =
     "2020-01-02T12:00:00Z:30".
Proof.
  split.
  - rewrite find_build. vm_compute. reflexivity.
  - rewrite time_text_iso8601. vm_compute. reflexivity.
Qed.

(** C1, at a failing input. The time of [Examples.lmt] is 19 minutes and 32
    seconds east of UTC. [_build] writes the offset as [+00:19:32], a text
    that [isoparse] does not take, and parsing what was built raises instead
    of giving the waypoint back. *)
Theorem parse_build_offset_seconds :
  find (_build Examples.lmt "wpt") "time" =
    Some (Element "time" [] (Some "1900-01-01T00:00:00+00:19:32") [])
  /\ _parse reference (_build Examples.lmt "wpt") =
     Raise (ValueError "Time zone offset must be 1, 3, 5 or 6 characters").
Proof.
  split.
  - rewrite find_build. vm_compute. reflexivity.
  - unfold _parse. cbn [bind]. reflexivity.
Qed.

(** [Examples.full], every attribute set: its values convert back, and
    parsing what it builds gives it back with its time in milliseconds. *)
Lemma parse_build_full :
  _parse reference (_build Examples.full "wpt") = Ok (as_written Examples.full).
Proof.
  apply (parse_build_values Examples.full "wpt").
  unfold values_roundtrip.
  repeat split; try (vm_compute; reflexivity).
  repeat constructor.
Qed.

(** * Further properties of the class *)

(** ** The shape of what [_build] makes *)

Section BuildShape.

Context {X : Externals}.
Implicit Types (w : Waypoint X) (e : element).

Lemma element_eta e : e = Element (tag e) (attrib e) (text e) (children e).
Proof. now destruct e. Qed.

Lemma tag_emit {T : Type} (str : T -> string) (name_ : string) (o : option T) e :
  tag (emit str name_ o e) = tag e /\ text (emit str name_ o e) = text e.
Proof. destruct o; [now destruct e|now split]. Qed.

Lemma tag_append_links (ls : list (Link X)) e :
  tag (fold_left (fun wp link => append wp (Link_build X link)) ls e) = tag e
  /\ text (fold_left (fun wp link => append wp (Link_build X link)) ls e) = text e.
Proof.
  revert e. induction ls as [|l ls IH]; intro e; cbn [fold_left]; [now split|].
  destruct (IH (append e (Link_build X l))) as [-> ->]. now destruct e.
Qed.

Lemma tag_build w (tag_ : string) :
  tag (_build w tag_) = tag_ /\ text (_build w tag_) = None.
Proof.
  unfold _build.
  repeat first [ rewrite (proj1 (tag_emit _ _ _ _))
               | rewrite (proj2 (tag_emit _ _ _ _))
               | rewrite (proj1 (tag_append_links _ _))
               | rewrite (proj2 (tag_append_links _ _)) ].
  now split.
Qed.

(** What [_build] makes has the tag it is given, the two attributes [lat]
    and [lon] and no other, no text, and its children in one fixed order:
    [ele], [time], [magvar], [geoidheight], [name], [cmt], [desc], [src], the
    links, [sym], [type], [fix], [sat], [hdop], [vdop], [pdop],
    [ageofdgpsdata], [dgpsid], each only if the attribute is set. *)
Theorem build_shape w (tag_ : string) :
  _build w tag_ =
  Element tag_
    [("lat", Latitude_str X (lat w)); ("lon", Longitude_str X (lon w))]
    None (built_children w).
Proof.
  rewrite (element_eta (_build w tag_)).
  destruct (tag_build w tag_) as [-> ->].
  now rewrite attrib_build, children_build.
Qed.

(** An optional attribute has at most one child in what [_build] makes: one
    with its text when it is set, none when it is not. *)
Theorem field_children w (tag_ : string) (f : field) :
  links_build_link w ->
  iterfind (_build w tag_) (field_tag f) =
  match field_text w f with
  | Some s => [Element (field_tag f) [] (Some s) []]
  | None => []
  end.
Proof.
  intros Hlinks. rewrite iterfind_build by assumption.
  unfold built_children.
  rewrite !filter_app, !filter_emitted, (filter_links _ _ Hlinks).
  destruct f; cbn [field_tag field_text]; decide_tags; cbn [app];
    match goal with
    | |- context [emitted _ _ ?o] => destruct o; reflexivity
    end.
Qed.

(** The [link] children of what [_build] makes are what the links build, as
    many and in the order of the list. *)
Theorem link_children w (tag_ : string) :
  links_build_link w ->
  iterfind (_build w tag_) "link" = map (Link_build X) (links w)
  /\ length (iterfind (_build w tag_) "link") = length (links w).
Proof.
  intro Hlinks.
  assert (E : iterfind (_build w tag_) "link" = map (Link_build X) (links w)).
  { rewrite iterfind_build by assumption. unfold built_children.
    rewrite !filter_app, !filter_emitted, (filter_links _ _ Hlinks).
    decide_tags. cbn [app]. now rewrite app_nil_r. }
  split; [exact E|]. now rewrite E, length_map.
Qed.

End BuildShape.

(** [Examples.full]: one [ele] child, with the text of the elevation. *)
Lemma field_children_witness :
  iterfind (_build Examples.full "wpt") "ele" =
  [Element "ele" [] (Some "123.4500") []].
Proof.
  apply (field_children Examples.full "wpt" f_ele). repeat constructor.
Defined.

(** [Examples.full]: three [link] children. *)
Lemma link_children_witness :
  length (iterfind (_build Examples.full "rtept") "link") = 3%nat.
Proof.
  apply (link_children Examples.full "rtept"). repeat constructor.
Defined.

(** ** What [_parse] reads of an element *)

Section ParseReads.

Context {X : Externals}.
Implicit Types (w : Waypoint X) (e el : element) (cs : list element).

(** [_parse] reads the attributes [lat] and [lon], the first child of each
    tag it looks for, and the [link] children: two elements that agree on
    these parse alike. *)
Lemma parse_ext el el' :
  get el "lat" = get el' "lat" ->
  get el "lon" = get el' "lon" ->
  (forall n, In n found_tags -> find el n = find el' n) ->
  iterfind el "link" = iterfind el' "link" ->
  _parse X el = _parse X el'.
Proof.
  intros Hlat Hlon Hfind Hlink.
  unfold _parse, child, child_text.
  rewrite Hlat, Hlon, Hlink.
  rewrite !(Hfind _) by (cbn; tauto).
  reflexivity.
Qed.

Lemma find_insert (n : string) (c : element) cs1 cs2 :
  String.eqb (tag c) n = false \/ has_tag n cs1 = true ->
  List.find (fun x => String.eqb (tag x) n) (cs1 ++ c :: cs2) =
  List.find (fun x => String.eqb (tag x) n) (cs1 ++ cs2).
Proof.
  intro H. induction cs1 as [|c1 cs1 IH]; cbn [app List.find].
  - destruct H as [-> | H]; [reflexivity|discriminate].
  - destruct (String.eqb (tag c1) n) eqn:E; [reflexivity|].
    apply IH. destruct H as [H|H]; [now left|right].
    cbn [has_tag existsb] in H. now rewrite E in H.
Qed.

Lemma filter_insert (n : string) (c : element) cs1 cs2 :
  String.eqb (tag c) n = false ->
  filter (fun x => String.eqb (tag x) n) (cs1 ++ c :: cs2) =
  filter (fun x => String.eqb (tag x) n) (cs1 ++ cs2).
Proof.
  intro H. rewrite !filter_app. cbn [filter]. now rewrite H.
Qed.

Lemma not_in_found (n : string) :
  ~ In n found_tags -> forall m, In m found_tags -> String.eqb n m = false.
Proof.
  intros Hn m Hm. destruct (String.eqb n m) eqn:E; [|reflexivity].
  apply String.eqb_eq in E. now subst m.
Qed.

Lemma found_not_link (n : string) : In n found_tags -> String.eqb n "link" = false.
Proof.
  intro H. cbn in H.
  repeat (destruct H as [<-|H]; [reflexivity|]). contradiction.
Qed.

(** A child whose tag [_parse] does not look for is not read; neither are
    the tag and the text of the element itself. *)
Theorem parse_ignores_child (t t' : string) (a : list (string * string))
    (x x' : option string) (c : element) cs1 cs2 :
  ~ In (tag c) found_tags ->
  tag c <> "link" ->
  _parse X (Element t a x (cs1 ++ c :: cs2)%list) =
  _parse X (Element t' a x' (cs1 ++ cs2)%list).
Proof.
  intros Hc Hl. apply parse_ext; try reflexivity.
  - intros n Hn. unfold find. cbn [children].
    apply find_insert. left. now apply not_in_found.
  - unfold iterfind. cbn [children]. apply filter_insert.
    destruct (String.eqb (tag c) "link") eqn:E; [|reflexivity].
    now apply String.eqb_eq in E.
Qed.

(** Of several children with one of the tags that [_parse] looks for, only
    the first is read: a later one makes no difference. *)
Theorem parse_first_child_wins (t : string) (a : list (string * string))
    (x : option string) (c : element) cs1 cs2 :
  In (tag c) found_tags ->
  has_tag (tag c) cs1 = true ->
  _parse X (Element t a x (cs1 ++ c :: cs2)%list) =
  _parse X (Element t a x (cs1 ++ cs2)%list).
Proof.
  intros Hc Hfirst. apply parse_ext; try reflexivity.
  - intros n Hn. unfold find. cbn [children].
    apply find_insert.
    destruct (String.eqb (tag c) n) eqn:E; [right|now left].
    apply String.eqb_eq in E. now subst n.
  - unfold iterfind. cbn [children]. apply filter_insert.
    now apply found_not_link.
Qed.

End ParseReads.

(** An [extensions] child, another tag and a text on the element: the parse
    is that of the plain element. *)
Lemma parse_ignores_child_witness :
  _parse reference
    (Element "trkpt" [("lat", "50.5"); ("lon", "1")] (Some " ")
       [Element "ele" [] (Some "12") [];
        Element "extensions" [] None [Element "hr" [] (Some "90") []];
        Element "sat" [] (Some "7") []]) =
  _parse reference
    (Element "wpt" [("lat", "50.5"); ("lon", "1")] None
       [Element "ele" [] (Some "12") []; Element "sat" [] (Some "7") []]).
Proof.
  apply (parse_ignores_child (X := reference) "trkpt" "wpt"
           [("lat", "50.5"); ("lon", "1")] (Some " ") None
           (Element "extensions" [] None [Element "hr" [] (Some "90") []])
           [Element "ele" [] (Some "12") []] [Element "sat" [] (Some "7") []]).
  - cbn. intuition discriminate.
  - discriminate.
Defined.

(** A second [ele] child, even one that does not convert, is not read. *)
Lemma parse_first_child_wins_witness :
  _parse reference
    (Element "wpt" [("lat", "50.5"); ("lon", "1")] None
       [Element "ele" [] (Some "12") []; Element "ele" [] (Some "high") []]) =
  _parse reference
    (Element "wpt" [("lat", "50.5"); ("lon", "1")] None
       [Element "ele" [] (Some "12") []]).
Proof.
  apply (parse_first_child_wins (X := reference) "wpt"
           [("lat", "50.5"); ("lon", "1")] None
           (Element "ele" [] (Some "high") [])
           [Element "ele" [] (Some "12") []] []).
  - cbn. tauto.
  - reflexivity.
Defined.

(** ** What [_parse] returns *)

Section ParseResult.

Context {X : Externals}.
Implicit Types (w : Waypoint X) (e el : element) (cs : list element).

Lemma bind_ok {A B : Type} (m : result A) (k : A -> result B) (b : B) :
  bind m k = Ok b -> exists a, m = Ok a /\ k a = Ok b.
Proof. destruct m as [a|e]; [now exists a|discriminate]. Qed.

(** The free-text attributes of a parsed waypoint are the texts of the
    first children with their tags. *)
Lemma parse_text_fields el w :
  _parse X el = Ok w ->
  forall f, is_text_field f = true -> field_text w f = child_text el (field_tag f).
Proof.
  unfold _parse. intro H.
  repeat (apply bind_ok in H; destruct H as (? & _ & H)).
  injection H as <-. intros f Hf. destruct f; try discriminate; reflexivity.
Qed.

(** The children with the tag of an optional attribute, by the shape of
    what [_build] makes. *)
Ltac filter_children Hlinks :=
  rewrite iterfind_build by assumption; unfold built_children;
  rewrite !filter_app, !filter_emitted, (filter_links _ _ Hlinks).

(** A free-text child that is there but has no text is parsed as an
    attribute that is not set, and building the parsed waypoint does not
    write it again. *)
Theorem empty_text_child_dropped el w (tag_ : string) (f : field) (c : element) :
  _parse X el = Ok w ->
  is_text_field f = true ->
  find el (field_tag f) = Some c ->
  text c = None ->
  links_build_link w ->
  is_set w f = false /\ iterfind (_build w tag_) (field_tag f) = [].
Proof.
  intros Hp Hf Hc Ht Hlinks.
  pose proof (parse_text_fields el w Hp f Hf) as E.
  unfold child_text in E. rewrite Hc, Ht in E.
  split.
  - destruct f; try discriminate; cbn [field_text] in E; cbn [is_set];
      now rewrite E.
  - filter_children Hlinks.
    destruct f; try discriminate; cbn [field_text] in E; cbn [field_tag];
      rewrite E; decide_tags; reflexivity.
Qed.

(** An element without children parses to the defaults of [__init__], with
    its two coordinates; and building a waypoint with these defaults makes
    an element without children. *)
Theorem parse_childless (t : string) (a : list (string * string))
    (x : option string) (la : Latitude X) (lo : Longitude X) (tag_ : string) :
  Latitude_new X (lookup "lat" a) = Ok la ->
  Longitude_new X (lookup "lon" a) = Ok lo ->
  _parse X (Element t a x []) = Ok (Waypoint_init la lo)
  /\ children (_build (Waypoint_init la lo) tag_) = [].
Proof.
  intros Hla Hlo. split.
  - unfold _parse, get. cbn [attrib]. now rewrite Hla, Hlo.
  - now rewrite children_build.
Qed.

End ParseResult.

(** A [name] child without a text, between an [ele] and a [sym]: the parsed
    waypoint has no name and builds no [name] child. *)
Lemma empty_text_child_dropped_witness :
  iterfind
    (_build (Examples.bare (mkDecimal 505 (-1)) (mkDecimal 1 0))
       "wpt") "name" = [].
Proof.
  apply (empty_text_child_dropped (X := reference)
           (Element "wpt" [("lat", "50.5"); ("lon", "1")] None
              [Element "name" [] None []])
           (Examples.bare (mkDecimal 505 (-1)) (mkDecimal 1 0)) "wpt" f_name
           (Element "name" [] None []));
    try reflexivity.
  constructor.
Defined.

(** An element that has only its two coordinates. *)
Lemma parse_childless_witness :
  _parse reference (Element "wpt" [("lat", "50.5"); ("lon", "1")] None []) =
  Ok (Examples.bare (mkDecimal 505 (-1)) (mkDecimal 1 0)).
Proof.
  apply (parse_childless (X := reference) "wpt" [("lat", "50.5"); ("lon", "1")]
           None (mkDecimal 505 (-1) : Latitude reference)
           (mkDecimal 1 0 : Longitude reference) "wpt"); reflexivity.
Defined.

(** ** Writing a waypoint again *)

Section Rewrite.

Context {X : Externals}.
Implicit Types (w : Waypoint X).

Lemma iso8601_seconds (t : datetime) :
  iso8601 t =
  iso_seconds t ++
  (if (microsecond t =? 0)%N then ""
   else "." ++ Str.zfill 3 (microsecond t / 1000)) ++
  designator (tzinfo t).
Proof.
  unfold iso8601, iso_seconds.
  repeat rewrite Str_facts.append_assoc. reflexivity.
Qed.

Lemma written_precision_fields (t : datetime) :
  iso_seconds (at_written_precision t) = iso_seconds t
  /\ tzinfo (at_written_precision t) = tzinfo t
  /\ microsecond (at_written_precision t) = (microsecond t / 1000 * 1000)%N.
Proof. now destruct t. Qed.

(** A time whose microseconds are zero or make at least a millisecond has the
    same text before and after it is cut to milliseconds. *)
Lemma time_text_written (t : datetime) :
  (microsecond t = 0 \/ 1000 <= microsecond t)%N ->
  time_text (at_written_precision t) = time_text t.
Proof.
  intro H. rewrite !time_text_iso8601, !iso8601_seconds.
  destruct (written_precision_fields t) as (-> & -> & ->).
  rewrite N.div_mul by discriminate.
  assert (E : ((microsecond t / 1000 * 1000 =? 0) = (microsecond t =? 0))%N).
  { destruct H as [-> | H]; [reflexivity|].
    assert (1 <= microsecond t / 1000)%N
      by (apply N.div_le_lower_bound; [discriminate|lia]).
    transitivity false; [|symmetry]; apply N.eqb_neq; lia. }
  now rewrite E.
Qed.

(** Building is stable under the loss of precision of the time: when the
    microseconds of the time are zero or at least 1000, the waypoint at the
    written precision, which is what parsing gives back, builds the very
    same element. *)
Theorem rebuild_stable w (tag_ : string) :
  (forall t, time w = Some t ->
     (microsecond t = 0 \/ 1000 <= microsecond t)%N) ->
  _build (as_written w) tag_ = _build w tag_.
Proof.
  intro H.
  rewrite (element_eta (_build (as_written w) tag_)), (element_eta (_build w tag_)).
  destruct (tag_build (as_written w) tag_) as [-> ->].
  destruct (tag_build w tag_) as [-> ->].
  rewrite !attrib_build, !children_build.
  unfold built_children, as_written. cbn [lat lon ele time magvar geoidheight
    name cmt desc src links sym type fix_ sat hdop vdop pdop ageofdgpsdata dgpsid].
  destruct (time w) as [t|]; [|reflexivity].
  cbn [option_map emitted]. now rewrite (time_text_written t (H t eq_refl)).
Qed.

(** Below a millisecond the text is not stable: a time with 1 to 999
    microseconds is written with the fraction [.000], and the time that is
    parsed back from it, which has no microseconds, is written without a
    fraction. *)
Theorem submillisecond_text_changes (t : datetime) :
  (0 < microsecond t < 1000)%N ->
  time_text t = iso_seconds t ++ ".000" ++ designator (tzinfo t)
  /\ time_text (at_written_precision t) = iso_seconds t ++ designator (tzinfo t)
  /\ time_text (at_written_precision t) <> time_text t.
Proof.
  intros [Hpos Hlt].
  assert (E1 : time_text t = iso_seconds t ++ ".000" ++ designator (tzinfo t)).
  { rewrite time_text_iso8601, iso8601_seconds.
    rewrite (proj2 (N.eqb_neq _ _)) by lia.
    rewrite N.div_small by assumption. reflexivity. }
  assert (E2 : time_text (at_written_precision t) =
               iso_seconds t ++ designator (tzinfo t)).
  { rewrite time_text_iso8601, iso8601_seconds.
    destruct (written_precision_fields t) as (-> & -> & ->).
    rewrite N.div_small by assumption. reflexivity. }
  repeat split; [exact E1|exact E2|].
  rewrite E1, E2. intro E.
  apply (f_equal String.length) in E.
  rewrite !Str_facts.length_append in E. cbn in E. lia.
Qed.

End Rewrite.

(** [Examples.full]: its time has 678901 microseconds. *)
Lemma rebuild_stable_witness :
  _build (as_written Examples.full) "wpt" = _build Examples.full "wpt".
Proof.
  apply (rebuild_stable Examples.full "wpt").
  intros t [= <-]. right. cbn. lia.
Defined.

(** Half a millisecond past noon: [12:00:00.000Z], and then [12:00:00Z]. *)
Lemma submillisecond_text_changes_witness :
  time_text (mkdatetime 2020 1 2 12 0 0 500 (Some 0)) = "2020-01-02T12:00:00.000Z"
  /\ time_text (at_written_precision (mkdatetime 2020 1 2 12 0 0 500 (Some 0)))
     = "2020-01-02T12:00:00Z"
  /\ time_text (at_written_precision (mkdatetime 2020 1 2 12 0 0 500 (Some 0)))
     <> time_text (mkdatetime 2020 1 2 12 0 0 500 (Some 0)).
Proof.
  apply (submillisecond_text_changes (mkdatetime 2020 1 2 12 0 0 500 (Some 0))).
  cbn. lia.
Defined.

(** ** More on the metrics *)

Section MoreMetrics.

Context {X : Externals}.
Implicit Types a b p : Waypoint X.

Local Open Scope R_scope.

Lemma haversine_sym (phi1 lambda1 phi2 lambda2 : R) :
  haversine phi1 lambda1 phi2 lambda2 = haversine phi2 lambda2 phi1 lambda1.
Proof.
  unfold haversine.
  replace ((phi1 - phi2) / 2) with (- ((phi2 - phi1) / 2)) by lra.
  replace ((lambda1 - lambda2) / 2) with (- ((lambda2 - lambda1) / 2)) by lra.
  rewrite !sin_neg, <- !Rsqr_neg. ring.
Qed.

(** The distance is the same in both directions. *)
Theorem distance_to_symmetric a b (r : Z) :
  distance_to a b r = distance_to b a r.
Proof.
  rewrite !distance_to_unfold.
  now rewrite (haversine_sym (latitude_rad a) (longitude_rad a)).
Qed.




Lemma datetime_sub_antisym (t1 t2 : datetime) (d : timedelta) :
  datetime.sub t2 t1 = Ok d -> datetime.sub t1 t2 = Ok (- d)%Z.
Proof.
  unfold datetime.sub.
  destruct (tzinfo t1), (tzinfo t2); try discriminate;
    intros [= <-]; f_equal; lia.
Qed.

Lemma datetime_sub_error (t1 t2 : datetime) (e : exn) :
  datetime.sub t2 t1 = Raise e -> datetime.sub t1 t2 = Raise e.
Proof.
  unfold datetime.sub.
  destruct (tzinfo t1), (tzinfo t2); try discriminate; now intros [= <-].
Qed.

Lemma duration_to_antisymmetric_aux a b :
  (forall d, duration_to a b = Ok d -> duration_to b a = Ok (- d)%Z)
  /\ (forall e, duration_to a b = Raise e -> duration_to b a = Raise e).
Proof.
  unfold duration_to.
  destruct (time a) as [ta|], (time b) as [tb|]; split;
    try (intros ? [= <-]; reflexivity); try discriminate.
  - intro d. apply datetime_sub_antisym.
  - intro e. apply datetime_sub_error.
Qed.

(** The duration from [b] to [a] is the opposite of the duration from [a]
    to [b]. When both times are set and only one of them has an offset from
    UTC, there is no duration in either direction: the subtraction raises
    TypeError. *)
Theorem duration_to_antisymmetric a b :
  (forall d, duration_to a b = Ok d -> duration_to b a = Ok (- d)%Z)
  /\ (forall ta tb, time a = Some ta -> time b = Some tb ->
        is_some (tzinfo ta) <> is_some (tzinfo tb) ->
        duration_to a b =
          Raise (TypeError "can't subtract offset-naive and offset-aware datetimes")
        /\ duration_to b a =
          Raise (TypeError "can't subtract offset-naive and offset-aware datetimes")).
Proof.
  unfold duration_to. split.
  - intro d. destruct (time a) as [ta|], (time b) as [tb|];
      try (intros [= <-]; reflexivity).
    apply datetime_sub_antisym.
  - intros ta tb -> -> H. unfold datetime.sub.
    destruct (tzinfo ta), (tzinfo tb); cbn in H; try contradiction; now split.
Qed.

Lemma truediv_opp (d s : R) :
  math.truediv d (- s) = opp_result (math.truediv d s).
Proof.
  unfold math.truediv.
  destruct (Req_dec_T s 0) as [->|Hs].
  - rewrite Ropp_0. destruct (Req_dec_T 0 0); [reflexivity|contradiction].
  - destruct (Req_dec_T (- s) 0) as [E|_]; [lra|].
    cbn [opp_result]. f_equal. field. assumption.
Qed.

Lemma total_seconds_opp (t : timedelta) :
  total_seconds (- t)%Z = - total_seconds t.
Proof. unfold total_seconds. rewrite opp_IZR. lra. Qed.

(** The speed from [b] to [a] is the opposite of the speed from [a] to [b],
    and fails as it does: a speed is negative when the other waypoint is the
    earlier one. *)
Theorem speed_to_antisymmetric a b :
  speed_to b a = opp_result (speed_to a b).
Proof.
  unfold speed_to.
  rewrite (distance_to_unfold b a),
    (haversine_sym (latitude_rad b) (longitude_rad b)),
    <- (distance_to_unfold a b).
  destruct (distance_to a b default_radius) as [d|e]; cbn [bind opp_result];
    [|reflexivity].
  destruct (duration_to a b) as [t|e] eqn:E.
  - rewrite (proj1 (duration_to_antisymmetric_aux a b) t E). cbn [bind].
    rewrite total_seconds_opp. apply truediv_opp.
  - rewrite (proj2 (duration_to_antisymmetric_aux a b) e E). reflexivity.
Qed.

End MoreMetrics.


Section GainSlope.

Context {X : Externals}.
Implicit Types a b p : Waypoint X.

(** The gain between two finite elevations has at most 28 digits. When the
    two have the same exponent, that is, as many decimals, and that exponent
    is within the context, from [Etiny] to [Etop], and their difference has
    at most 28 digits, the gain is that difference exactly, with that
    exponent. *)
Theorem gain_to_same_exponent a b (sa sb : bool) (ca cb : N) (ea eb : Z) :
  ele a = Some (Finite sa ca ea) -> ele b = Some (Finite sb cb eb) ->
  (forall s c e, gain_to a b = Ok (Finite s c e) -> Z.of_N c < 10 ^ 28)
  /\ (ea = eb ->
      decimal.Etiny <= ea <= decimal.Etop ->
      Z.abs (decimal.signed sb cb - decimal.signed sa ca) < 10 ^ 28 ->
      exists s,
        gain_to a b =
          Ok (Finite s (Z.abs_N (decimal.signed sb cb - decimal.signed sa ca)) ea)
        /\ (decimal.signed sb cb - decimal.signed sa ca <> 0 ->
            s = (decimal.signed sb cb - decimal.signed sa ca <? 0))).
Proof.
  intros Ha Hb. unfold gain_to. rewrite Ha, Hb. split.
  - intros s c e H. apply decimal_facts.sub_fixed in H.
    now apply decimal_facts.fixed_bound in H.
  - intros <- He Hv.
    cbn [decimal.sub decimal._check_nans decimal.add decimal.copy_negate].
    destruct (decimal_facts.add_finite_same_exp sb cb (negb sa) ca ea) as (s & E & Hs).
    assert (Eneg : decimal.signed (negb sa) ca = - decimal.signed sa ca)
      by (unfold decimal.signed; destruct sa; cbn [negb]; lia).
    rewrite Eneg in E, Hs. change (?x + - ?y) with (x - y) in E, Hs.
    exists s. split; [|exact Hs]. rewrite E.
    apply decimal_facts.fixed_in_range; [|exact He].
    change decimal.prec with 28. lia.
Qed.

End GainSlope.

(** 123.4500 m and 120.0000 m: a gain of -3.4500 m. *)
Lemma gain_to_same_exponent_witness :
  exists s,
    gain_to Examples.full
      (mkWaypoint (X := reference) (lat Examples.full) (lon Examples.full)
         (Some (mkDecimal 1200000 (-4))) None None None None None None None []
         None None None None None None None None None) =
    Ok (Finite s 34500 (-4))
    /\ (-34500 <> 0 -> s = true).
Proof.
  apply (gain_to_same_exponent Examples.full
           (mkWaypoint (X := reference) (lat Examples.full) (lon Examples.full)
              (Some (mkDecimal 1200000 (-4))) None None None None None None None []
              None None None None None None None None None)
           false false 1234500 1200000 (-4) (-4) eq_refl eq_refl);
    [ reflexivity
    | unfold decimal.Etiny, decimal.Etop, decimal.Emin, decimal.Emax, decimal.prec; lia
    | unfold decimal.signed; lia ].
Defined.

(** ** More on the projection *)

Section MoreProjection.

Context {X : Externals}.
Implicit Types (w : Waypoint X) (l : Link X) (ls : list (Link X)).

Lemma set_new (k : option string) (v : string) (d : list (option string * string)) :
  dict.get text_eqb k d = None ->
  dict.set text_eqb k v d = (d ++ [(k, v)])%list.
Proof.
  induction d as [|[k' v'] d IH]; cbn [dict.get dict.set app]; [reflexivity|].
  destruct (text_eqb k' k); [discriminate|]. intro H. now rewrite (IH H).
Qed.

Lemma get_app_none (k : option string) (d d' : list (option string * string)) :
  dict.get text_eqb k d = None ->
  dict.get text_eqb k (d ++ d')%list = dict.get text_eqb k d'.
Proof.
  induction d as [|[k' v'] d IH]; cbn [dict.get app]; [reflexivity|].
  destruct (text_eqb k' k); [discriminate|exact IH].
Qed.

Lemma fold_links_distinct ls (d : list (option string * string)) :
  NoDup (map (Link_text X) ls) ->
  (forall l, In l ls -> dict.get text_eqb (Link_text X l) d = None) ->
  fold_left add_link ls d = (d ++ link_items ls)%list.
Proof.
  revert d. induction ls as [|l ls IH]; intros d Hnd Hd;
    cbn [fold_left link_items map]; [now rewrite app_nil_r|].
  inversion Hnd as [|? ? Hnotin Hnd']; subst.
  unfold add_link at 2. rewrite set_new by (apply Hd; now left).
  rewrite IH; [now rewrite <- app_assoc|assumption|].
  intros l' Hl'. rewrite get_app_none by (apply Hd; now right).
  cbn [dict.get]. destruct (text_eqb (Link_text X l) (Link_text X l')) eqn:E;
    [|reflexivity].
  apply text_eqb_eq in E. exfalso. apply Hnotin. rewrite E.
  now apply in_map.
Qed.

(** When no two links have the same text, the [links] of the projection are
    the pairs of text and address of the links, as many and in their
    order. *)
Theorem links_projection_distinct w :
  NoDup (map (Link_text X) (links w)) ->
  prop_links (properties (__geo_interface__ w)) = link_items (links w).
Proof.
  intro H. unfold __geo_interface__. cbn [properties prop_links].
  rewrite links_dict_fold. now rewrite fold_links_distinct.
Qed.

(** A time in UTC is written in two ways: the projection has it with the
    offset [+00:00] and, when the microseconds are not zero, with six
    digits of fraction; the [time] child that [_build] makes has it with [Z]
    and three digits of fraction. *)
Theorem projection_time_utc w (tag_ : string) (t : datetime) :
  time w = Some t ->
  tzinfo t = Some 0 ->
  prop_time (properties (__geo_interface__ w)) =
    Some (iso_seconds t ++
          (if (microsecond t =? 0)%N then ""
           else "." ++ Str.zfill 6 (microsecond t)) ++ "+00:00")
  /\ find (_build w tag_) "time" =
    Some (Element "time" []
            (Some (iso_seconds t ++
                   (if (microsecond t =? 0)%N then ""
                    else "." ++ Str.zfill 3 (microsecond t / 1000)) ++ "Z")) []).
Proof.
  intros Ht Hz. split.
  - unfold __geo_interface__. cbn [properties prop_time]. rewrite Ht.
    cbn [option_map]. f_equal.
    unfold isoformat, _format_time, iso_seconds. rewrite Hz.
    destruct (microsecond t =? 0)%N; cbv iota;
      repeat rewrite Str_facts.append_assoc; reflexivity.
  - rewrite find_build. unfold built_children.
    rewrite !find_app, !find_emitted. decide_tags.
    rewrite Ht. cbn [option_map].
    now rewrite time_text_iso8601, iso8601_seconds, Hz.
Qed.

End MoreProjection.

(** Two links with different texts. *)
Lemma links_projection_distinct_witness :
  prop_links (properties (__geo_interface__
    (mkWaypoint (X := reference) (lat Examples.full) (lon Examples.full)
       None None None None None None None None
       [Reference.mklink "http://a.example" (Some "map");
        Reference.mklink "http://b.example" None]
       None None None None None None None None None))) =
  [(Some "map", "http://a.example"); (None, "http://b.example")].
Proof.
  apply (links_projection_distinct
    (mkWaypoint (X := reference) (lat Examples.full) (lon Examples.full)
       None None None None None None None None
       [Reference.mklink "http://a.example" (Some "map");
        Reference.mklink "http://b.example" None]
       None None None None None None None None None)).
  repeat constructor; cbn; intuition discriminate.
Defined.

(** [Examples.flat], at noon UTC. *)
Lemma projection_time_utc_witness :
  prop_time (properties (__geo_interface__ Examples.flat)) =
    Some "2020-01-02T12:00:00+00:00"
  /\ find (_build Examples.flat "wpt") "time" =
    Some (Element "time" [] (Some "2020-01-02T12:00:00Z") []).
Proof.
  exact (projection_time_utc Examples.flat "wpt" Examples.noon eq_refl eq_refl).
Defined.

(** ** Presence and links on the way in *)

Section ParsePresence.

Context {X : Externals}.
Implicit Types (w : Waypoint X) (el : element).

Lemma child_presence {T : Type} (conv : option string -> result T)
    el (n : string) (o : option T) :
  child conv el n = Ok o -> is_some o = is_some (find el n).
Proof.
  unfold child. destruct (find el n) as [c|]; [|now intros [= <-]].
  destruct (conv (text c)); [now intros [= <-]|discriminate].
Qed.

Lemma for_each_Forall2 {A B : Type} (f : A -> result B) (xs : list A)
    (ys : list B) :
  for_each f xs = Ok ys -> Forall2 (fun x y => f x = Ok y) xs ys.
Proof.
  revert ys. induction xs as [|x xs IH]; intros ys; cbn [for_each].
  - intros [= <-]. constructor.
  - destruct (f x) as [y|] eqn:E; [|discriminate]. cbn [bind].
    destruct (for_each f xs) as [ys'|]; [|discriminate]. cbn [bind].
    intros [= <-]. constructor; [assumption|now apply IH].
Qed.

(** An attribute that is converted from its text is set in the parsed
    waypoint exactly when the element has a child with its tag: what is
    absent stays absent, and nothing absent is made up. *)
Theorem parse_presence el w (f : field) :
  _parse X el = Ok w ->
  is_text_field f = false ->
  is_set w f = is_some (find el (field_tag f)).
Proof.
  unfold _parse. intros H Hf.
  apply bind_ok in H; destruct H as (? & _ & H).
  apply bind_ok in H; destruct H as (? & _ & H).
  apply bind_ok in H; destruct H as (? & Hele & H).
  apply bind_ok in H; destruct H as (? & Htime & H).
  apply bind_ok in H; destruct H as (? & Hmagvar & H).
  apply bind_ok in H; destruct H as (? & Hgeoid & H).
  apply bind_ok in H; destruct H as (? & _ & H).
  apply bind_ok in H; destruct H as (? & Hfix & H).
  apply bind_ok in H; destruct H as (? & Hsat & H).
  apply bind_ok in H; destruct H as (? & Hhdop & H).
  apply bind_ok in H; destruct H as (? & Hvdop & H).
  apply bind_ok in H; destruct H as (? & Hpdop & H).
  apply bind_ok in H; destruct H as (? & Hage & H).
  apply bind_ok in H; destruct H as (? & Hdgps & H).
  injection H as <-.
  destruct f; try discriminate; cbn [is_set field_tag ele time magvar
    geoidheight fix_ sat hdop vdop pdop ageofdgpsdata dgpsid];
    eapply child_presence; eassumption.
Qed.

(** The links of the parsed waypoint are the [link] children of the
    element, each parsed, as many and in document order. *)
Theorem parse_links el w :
  _parse X el = Ok w ->
  Forall2 (fun c l => Link_new X c = Ok l) (iterfind el "link") (links w)
  /\ length (links w) = length (iterfind el "link").
Proof.
  unfold _parse. intros H.
  do 6 (apply bind_ok in H; destruct H as (? & _ & H)).
  apply bind_ok in H; destruct H as (ls & Hls & H).
  do 7 (apply bind_ok in H; destruct H as (? & _ & H)).
  injection H as <-. cbn [links].
  pose proof (for_each_Forall2 _ _ _ Hls) as F.
  split; [exact F|]. symmetry. exact (Forall2_length F).
Qed.

End ParsePresence.

(** What [Examples.flat] builds parses to a waypoint without elevation. *)
Lemma parse_presence_witness :
  is_set (as_written Examples.flat) f_ele =
  is_some (find (_build Examples.flat "wpt") "ele").
Proof.
  apply (parse_presence (X := reference) (_build Examples.flat "wpt")
           (as_written Examples.flat) f_ele); reflexivity.
Defined.

(** What [Examples.full] builds parses to a waypoint with three links. *)
Lemma parse_links_witness :
  length (links (as_written Examples.full)) =
  length (iterfind (_build Examples.full "wpt") "link").
Proof.
  apply (parse_links (X := reference) (_build Examples.full "wpt")
           (as_written Examples.full)).
  reflexivity.
Defined.
